(** * auth.js: the authentication page script, as a state-passing model

    The script wires DOM listeners to [fetch] and to [localStorage].
    Every function of [src/JS/auth.js] that takes part in the request and
    feedback flow is transcribed below as a computation in a small
    state-and-exception monad over a record [world] that holds the part
    of the browser the script reads or writes: the elements it looks up,
    the timer table, [localStorage], the two script-level variables
    ([showMessage._t] and [inShowMessage]) and a trace of what leaves the
    page (requests, aborts, calls of the original console functions).

    What the model fixes about the browser:
    - a handler is run from the submit event to its end, or to the
      [await] it never leaves, with the behaviour of the network for its
      one request as an argument; no event of another source is
      interleaved while it waits;
    - time is logical: a timer is kept with its delay, [fetch] settles a
      given number of milliseconds after the call, and the abort timer
      set just before the call wins when it is due no later; the body of
      a response that has arrived is read completely, or never ends;
    - whether [localStorage] takes an entry is the browser's decision
      (quota, private mode), kept in the state as a test on the content
      of the store and the entry;
    - the values that reach the script from outside are JSON values (a
      parsed body, the arguments of a console call) and Error objects;
    - the text of an error raised by the engine or the browser itself is
      that of V8 and Blink.

    The listeners that toggle the forms, the password fields and the
    navigation menu act on parts of the page of their own and come
    after the handlers. *)

From stdpp Require Import gmap strings list pretty.
From Stdlib Require Import NArith Ascii Lia.

Open Scope N_scope.
Set Warnings "-register-all".

(** ** JavaScript strings

    A JavaScript string is a sequence of UTF-16 code units and [length]
    counts code units, so strings are lists of code units here.  Literals
    of the script are written as Rocq literals (UTF-8 bytes) and decoded
    by [utf16]. *)

Module JsString.

Abbreviation jsstring := (list N).

Fixpoint bytes_of (s : string) : list N :=
  match s with
  | EmptyString => []
  | String a r => N_of_ascii a :: bytes_of r
  end.

Definition cont (b : N) : N := N.land b 63.

(** UTF-8 bytes to code points; a truncated sequence ends the text. *)
Fixpoint code_points (bs : list N) : list N :=
  match bs with
  | [] => []
  | b0 :: r0 =>
    if b0 <? 128 then b0 :: code_points r0
    else match r0 with
    | [] => []
    | b1 :: r1 =>
      if b0 <? 224 then (N.shiftl (N.land b0 31) 6 + cont b1) :: code_points r1
      else match r1 with
      | [] => []
      | b2 :: r2 =>
        if b0 <? 240
        then (N.shiftl (N.land b0 15) 12 + N.shiftl (cont b1) 6 + cont b2)
               :: code_points r2
        else match r2 with
        | [] => []
        | b3 :: r3 =>
          (N.shiftl (N.land b0 7) 18 + N.shiftl (cont b1) 12
             + N.shiftl (cont b2) 6 + cont b3) :: code_points r3
        end
      end
    end
  end.

Definition units_of (cp : N) : list N :=
  if cp <? 65536 then [cp]
  else let c := cp - 65536 in [55296 + N.shiftr c 10; 56320 + N.land c 1023].

Definition utf16 (s : string) : jsstring :=
  concat (map units_of (code_points (bytes_of s))).

(** [String.prototype.trim] removes WhiteSpace and LineTerminator code
    units (ECMA-262, 12.2 and 12.3) from both ends. *)
Definition is_space (c : N) : bool :=
  (9 <=? c) && (c <=? 13)
  || (c =? 32) || (c =? 160) || (c =? 5760)
  || (8192 <=? c) && (c <=? 8202)
  || (c =? 8232) || (c =? 8233) || (c =? 8239) || (c =? 8287)
  || (c =? 12288) || (c =? 65279).

Fixpoint trimStart (s : jsstring) : jsstring :=
  match s with
  | [] => []
  | c :: r => if is_space c then trimStart r else s
  end.

Definition trimEnd (s : jsstring) : jsstring := rev (trimStart (rev s)).

Definition trim (s : jsstring) : jsstring := trimEnd (trimStart s).

(** ToBoolean on a string: the empty string alone is falsy. *)
Definition nonempty (s : jsstring) : bool :=
  match s with [] => false | _ :: _ => true end.

(** [sep] between consecutive items, as [Array.prototype.join] on texts. *)
Fixpoint join (sep : jsstring) (l : list jsstring) : jsstring :=
  match l with
  | [] => []
  | [x] => x
  | x :: r => x ++ sep ++ join sep r
  end.

(** Number::toString of a non-negative integer (an HTTP status). *)
Definition decimal (n : N) : jsstring := utf16 (pretty n).

End JsString.
Import JsString.

(** ** Values the script handles

    A parsed response body is a JSON value.  The script never computes
    with a number of the body: it tests it for truthiness and converts it
    to text, so a number is kept as those two observations. *)

Module Value.

Record number := { num_truthy : bool; num_text : jsstring }.

Inductive json :=
| JNull
| JBool (b : bool)
| JNum (n : number)
| JStr (s : jsstring)
| JArr (items : list json)
| JObj (members : list (jsstring * json)).

(** An Error object (also a DOMException), by the two fields read. *)
Record js_error := { err_name : jsstring; err_message : jsstring }.

Definition Error (msg : jsstring) : js_error :=
  {| err_name := utf16 "Error"; err_message := msg |}.

Definition TypeError (msg : jsstring) : js_error :=
  {| err_name := utf16 "TypeError"; err_message := msg |}.

(** What [controller.abort()] makes the pending [fetch] reject with. *)
Definition AbortError : js_error :=
  {| err_name := utf16 "AbortError";
     err_message := utf16 "The user aborted a request." |}.

(** Reading property [key] of [null]: the text is V8's. *)
Definition null_property (key : jsstring) : js_error :=
  TypeError (utf16 "Cannot read properties of null (reading '"
               ++ key ++ utf16 "')").

(** Arguments of a console call. *)
Inductive value :=
| VUndefined
| VJson (j : json)
| VError (e : js_error).

Definition VStr (s : jsstring) : value := VJson (JStr s).

(** ToBoolean. *)
Definition truthy (j : json) : bool :=
  match j with
  | JNull => false
  | JBool b => b
  | JNum n => num_truthy n
  | JStr s => nonempty s
  | JArr _ | JObj _ => true
  end.

(** The results of a list of steps, up to the first that throws. *)
Fixpoint collect {A} (l : list (js_error + A)) : js_error + list A :=
  match l with
  | [] => inr []
  | inl e :: _ => inl e
  | inr a :: r =>
    match collect r with
    | inl e => inl e
    | inr as_ => inr (a :: as_)
    end
  end.

(** ToPrimitive of an object that has no primitive value: the text is
    V8's. *)
Definition not_primitive : js_error :=
  TypeError (utf16 "Cannot convert object to primitive value").

(** Whether an object built by [JSON.parse] has an own member [key]. *)
Fixpoint has_own (key : jsstring) (ms : list (jsstring * json)) : bool :=
  match ms with
  | [] => false
  | (k, _) :: r => bool_decide (k = key) || has_own key r
  end.

(** ToString.  An array joins its items with a comma, [null] items as
    empty text, the first item that throws ending the conversion.  An
    object built by [JSON.parse] prints as [[object Object]] through
    [Object.prototype.toString], unless it has an own member "toString":
    that member hides the inherited method and is not a function, and
    [valueOf] gives no primitive either, so the conversion throws. *)
Fixpoint toString (j : json) : js_error + jsstring :=
  match j with
  | JNull => inr (utf16 "null")
  | JBool true => inr (utf16 "true")
  | JBool false => inr (utf16 "false")
  | JNum n => inr (num_text n)
  | JStr s => inr s
  | JArr items =>
    match collect (map (fun x => match x with
                                 | JNull => inr []
                                 | _ => toString x
                                 end) items) with
    | inl e => inl e
    | inr texts => inr (join (utf16 ",") texts)
    end
  | JObj ms =>
    if has_own (utf16 "toString") ms then inl not_primitive
    else inr (utf16 "[object Object]")
  end.

(** ToString of a value that may be [undefined]. *)
Definition toString_opt (v : option json) : js_error + jsstring :=
  match v with
  | Some j => toString j
  | None => inr (utf16 "undefined")
  end.

(** Error.prototype.toString. *)
Definition error_toString (e : js_error) : jsstring :=
  if negb (nonempty (err_name e)) then err_message e
  else if negb (nonempty (err_message e)) then err_name e
  else err_name e ++ utf16 ": " ++ err_message e.

(** One item of [args.join(" ")]: [undefined] and [null] give the empty
    text, every other item its ToString, which may throw. *)
Definition join_item (v : value) : js_error + jsstring :=
  match v with
  | VUndefined => inr []
  | VJson JNull => inr []
  | VJson j => toString j
  | VError e => inr (error_toString e)
  end.

Definition args_join (sep : jsstring) (args : list value) : js_error + jsstring :=
  match collect (map join_item args) with
  | inl e => inl e
  | inr texts => inr (join sep texts)
  end.

(** [data.key] for a parsed body [data] and a key that no prototype
    defines (the script reads "message", "error" and "token"): an own
    member of an object, the last one when the text repeats the key;
    [undefined] on the other values; reading from [null] throws. *)
Fixpoint member (key : jsstring) (ms : list (jsstring * json)) : option json :=
  match ms with
  | [] => None
  | (k, v) :: r =>
    match member key r with
    | Some w => Some w
    | None => if bool_decide (k = key) then Some v else None
    end
  end.

Definition property (key : jsstring) (data : json) : js_error + option json :=
  match data with
  | JNull => inl (null_property key)
  | JObj ms => inr (member key ms)
  | _ => inr None
  end.

(** [a || b] where [a] may be [undefined]. *)
Definition or_else (a : option json) (b : option json) : option json :=
  match a with
  | Some j => if truthy j then Some j else b
  | None => b
  end.

(** ** JSON.stringify *)

Definition hex_digit (n : N) : N := if n <? 10 then 48 + n else 87 + n.

Definition unicode_escape (c : N) : jsstring :=
  [92; 117; hex_digit (N.land (N.shiftr c 12) 15);
   hex_digit (N.land (N.shiftr c 8) 15);
   hex_digit (N.land (N.shiftr c 4) 15); hex_digit (N.land c 15)].

Definition is_high_surrogate (c : N) : bool := (55296 <=? c) && (c <=? 56319).
Definition is_low_surrogate (c : N) : bool := (56320 <=? c) && (c <=? 57343).

Definition escape_unit (c : N) : jsstring :=
  if c =? 8 then utf16 "\b"
  else if c =? 9 then utf16 "\t"
  else if c =? 10 then utf16 "\n"
  else if c =? 12 then utf16 "\f"
  else if c =? 13 then utf16 "\r"
  else if c =? 34 then [92; 34]
  else if c =? 92 then [92; 92]
  else if c <? 32 then unicode_escape c
  else [c].

(** QuoteJSONString without the enclosing quotes: a surrogate pair is
    kept, an unpaired surrogate is escaped. *)
Fixpoint escape_units (s : jsstring) : jsstring :=
  match s with
  | [] => []
  | c :: r =>
    if is_high_surrogate c then
      match r with
      | d :: r' =>
        if is_low_surrogate d then c :: d :: escape_units r'
        else unicode_escape c ++ escape_units r
      | [] => unicode_escape c
      end
    else if is_low_surrogate c then unicode_escape c ++ escape_units r
    else escape_unit c ++ escape_units r
  end.

Definition quote (s : jsstring) : jsstring := [34] ++ escape_units s ++ [34].

Fixpoint JSON_stringify (j : json) : jsstring :=
  match j with
  | JNull => utf16 "null"
  | JBool true => utf16 "true"
  | JBool false => utf16 "false"
  | JNum n => num_text n
  | JStr s => quote s
  | JArr items => [91] ++ join [44] (map JSON_stringify items) ++ [93]
  | JObj ms =>
    [123] ++ join [44] (map (fun m => quote (fst m) ++ [58] ++ JSON_stringify (snd m)) ms)
      ++ [125]
  end.

End Value.
Import Value.
(** ** The browser state the script acts on *)

Module Browser.

(** The element with id "errorMessage", by the fields the script sets. *)
Record status_element :=
  { textContent : jsstring; className : jsstring; display : jsstring }.

(** A submit button: [innerHTML] and [textContent] both replace its
    children, the first with parsed markup, the second with one text. *)
Inductive button_content :=
| InnerHTML (markup : jsstring)
| TextContent (text : jsstring).

Record button := { disabled : bool; content : button_content }.

Inductive button_id := SignupBtn | LoginBtn.

(** [getElementById] of every id the two handlers and [showMessage] look
    up: [None] is [null]; an input is kept by its [value], the container
    by whether its class list holds "active". *)
Record document :=
  { errorMessage : option status_element;
    container : option bool;
    signupBtn : option button;
    loginBtn : option button;
    registerUser : option jsstring;
    registerEmail : option jsstring;
    registerPass : option jsstring;
    loginUser : option jsstring;
    loginPass : option jsstring }.

(** The closures the script hands to [setTimeout]. *)
Inductive callback :=
| HideMessage
| AbortRequest (controller : N)
| Navigate (href : jsstring).

#[export] Instance callback_eq_dec : EqDecision callback.
Proof. solve_decision. Defined.

Record timer := { timer_id : N; delay : N; action : callback }.

Record request :=
  { req_url : jsstring;
    req_method : option jsstring;
    req_body : option jsstring;
    req_headers : gmap jsstring jsstring;
    req_signal : N }.

Inductive channel := Log | Warn | ErrorChannel.

(** What leaves the page, oldest first. *)
Inductive event :=
| PreventDefault
| Fetch (r : request)
| Aborted (controller : N)
| Console (ch : channel) (args : list value).

(** [storage_accepts]: whether the browser takes an entry into a store
    with the given content; [href]: the address last assigned to
    [window.location.href], the page's own when it was loaded. *)
Record world :=
  { doc : document;
    showMessage_t : option N;
    inShowMessage : bool;
    timers : list timer;
    next_timer : N;
    controllers : N;
    localStorage : gmap jsstring jsstring;
    storage_accepts : gmap jsstring jsstring -> jsstring -> jsstring -> bool;
    href : jsstring;
    trace : list event }.

Definition with_doc (f : document -> document) (w : world) : world :=
  {| doc := f (doc w); showMessage_t := showMessage_t w;
     inShowMessage := inShowMessage w; timers := timers w;
     next_timer := next_timer w; controllers := controllers w;
     localStorage := localStorage w;
     storage_accepts := storage_accepts w; href := href w; trace := trace w |}.

Definition with_showMessage_t (t : option N) (w : world) : world :=
  {| doc := doc w; showMessage_t := t;
     inShowMessage := inShowMessage w; timers := timers w;
     next_timer := next_timer w; controllers := controllers w;
     localStorage := localStorage w;
     storage_accepts := storage_accepts w; href := href w; trace := trace w |}.

Definition with_inShowMessage (b : bool) (w : world) : world :=
  {| doc := doc w; showMessage_t := showMessage_t w;
     inShowMessage := b; timers := timers w;
     next_timer := next_timer w; controllers := controllers w;
     localStorage := localStorage w;
     storage_accepts := storage_accepts w; href := href w; trace := trace w |}.

Definition with_timers (ts : list timer) (w : world) : world :=
  {| doc := doc w; showMessage_t := showMessage_t w;
     inShowMessage := inShowMessage w; timers := ts;
     next_timer := next_timer w; controllers := controllers w;
     localStorage := localStorage w;
     storage_accepts := storage_accepts w; href := href w; trace := trace w |}.

Definition with_next_timer (n : N) (w : world) : world :=
  {| doc := doc w; showMessage_t := showMessage_t w;
     inShowMessage := inShowMessage w; timers := timers w;
     next_timer := n; controllers := controllers w;
     localStorage := localStorage w;
     storage_accepts := storage_accepts w; href := href w; trace := trace w |}.

Definition with_controllers (n : N) (w : world) : world :=
  {| doc := doc w; showMessage_t := showMessage_t w;
     inShowMessage := inShowMessage w; timers := timers w;
     next_timer := next_timer w; controllers := n;
     localStorage := localStorage w;
     storage_accepts := storage_accepts w; href := href w; trace := trace w |}.

Definition with_localStorage (s : gmap jsstring jsstring) (w : world) : world :=
  {| doc := doc w; showMessage_t := showMessage_t w;
     inShowMessage := inShowMessage w; timers := timers w;
     next_timer := next_timer w; controllers := controllers w;
     localStorage := s; storage_accepts := storage_accepts w;
     href := href w; trace := trace w |}.

Definition with_storage_accepts
    (a : gmap jsstring jsstring -> jsstring -> jsstring -> bool) (w : world) : world :=
  {| doc := doc w; showMessage_t := showMessage_t w;
     inShowMessage := inShowMessage w; timers := timers w;
     next_timer := next_timer w; controllers := controllers w;
     localStorage := localStorage w; storage_accepts := a;
     href := href w; trace := trace w |}.

Definition with_href (h : jsstring) (w : world) : world :=
  {| doc := doc w; showMessage_t := showMessage_t w;
     inShowMessage := inShowMessage w; timers := timers w;
     next_timer := next_timer w; controllers := controllers w;
     localStorage := localStorage w;
     storage_accepts := storage_accepts w; href := h; trace := trace w |}.

Definition with_trace (t : list event) (w : world) : world :=
  {| doc := doc w; showMessage_t := showMessage_t w;
     inShowMessage := inShowMessage w; timers := timers w;
     next_timer := next_timer w; controllers := controllers w;
     localStorage := localStorage w;
     storage_accepts := storage_accepts w; href := href w; trace := t |}.

Definition with_errorMessage (e : option status_element) (d : document) : document :=
  {| errorMessage := e; container := container d;
     signupBtn := signupBtn d; loginBtn := loginBtn d;
     registerUser := registerUser d; registerEmail := registerEmail d;
     registerPass := registerPass d; loginUser := loginUser d;
     loginPass := loginPass d |}.

Definition with_container (c : option bool) (d : document) : document :=
  {| errorMessage := errorMessage d; container := c;
     signupBtn := signupBtn d; loginBtn := loginBtn d;
     registerUser := registerUser d; registerEmail := registerEmail d;
     registerPass := registerPass d; loginUser := loginUser d;
     loginPass := loginPass d |}.

Definition get_button (b : button_id) (d : document) : option button :=
  match b with SignupBtn => signupBtn d | LoginBtn => loginBtn d end.

Definition with_button (b : button_id) (v : option button) (d : document) : document :=
  {| errorMessage := errorMessage d; container := container d;
     signupBtn := match b with SignupBtn => v | LoginBtn => signupBtn d end;
     loginBtn := match b with LoginBtn => v | SignupBtn => loginBtn d end;
     registerUser := registerUser d; registerEmail := registerEmail d;
     registerPass := registerPass d; loginUser := loginUser d;
     loginPass := loginPass d |}.

(** *** Computations

    A segment of script either returns, throws, or is left suspended at
    an [await] whose promise never settles; in the last case neither a
    [catch] nor a [finally] block runs. *)

Inductive outcome (A : Type) :=
| Returns (a : A)
| Throws (e : js_error)
| Suspended.
Arguments Returns {A} a.
Arguments Throws {A} e.
Arguments Suspended {A}.

Definition M (A : Type) : Type := world -> outcome A * world.

Definition ret {A} (a : A) : M A := fun w => (Returns a, w).

Definition throw {A} (e : js_error) : M A := fun w => (Throws e, w).

Definition bind {A B} (m : M A) (k : A -> M B) : M B :=
  fun w =>
    match m w with
    | (Returns a, w1) => k a w1
    | (Throws e, w1) => (Throws e, w1)
    | (Suspended, w1) => (Suspended, w1)
    end.

Definition gets {A} (f : world -> A) : M A := fun w => (Returns (f w), w).

Definition modify (f : world -> world) : M unit := fun w => (Returns tt, f w).

(** [try { m } catch (err) { h err }] *)
Definition try_catch {A} (m : M A) (h : js_error -> M A) : M A :=
  fun w =>
    match m w with
    | (Throws e, w1) => h e w1
    | r => r
    end.

(** [try { m } finally { f }]: [f] runs after [m] returned or threw and
    its own throw replaces the outcome of [m]. *)
Definition try_finally {A} (m : M A) (f : M unit) : M A :=
  fun w =>
    match m w with
    | (Suspended, w1) => (Suspended, w1)
    | (r, w1) =>
      match f w1 with
      | (Returns _, w2) => (r, w2)
      | (Throws e, w2) => (Throws e, w2)
      | (Suspended, w2) => (Suspended, w2)
      end
    end.

(** An expression that may throw, lifted. *)
Definition lift {A} (x : js_error + A) : M A :=
  match x with inl e => throw e | inr a => ret a end.

End Browser.
Import Browser.

Declare Scope js_scope.
Delimit Scope js_scope with js.
Notation "x ← y ; z" := (bind y (fun x => z))
  (at level 20, y at level 100, z at level 200, only parsing) : js_scope.
Notation "y ;; z" := (bind y (fun _ => z))
  (at level 100, z at level 200, only parsing, right associativity) : js_scope.
Open Scope js_scope.

(** ** Platform operations *)

Module Platform.

Definition emit (e : event) : M unit :=
  modify (fun w => with_trace (trace w ++ [e]) w).

(** [setTimeout(cb, ms)]: a fresh id, the timer joins the table. *)
Definition setTimeout (cb : callback) (ms : N) : M N :=
  id ← gets next_timer;
  modify (fun w =>
    with_next_timer (id + 1)
      (with_timers (timers w ++ [{| timer_id := id; delay := ms; action := cb |}]) w));;
  ret id.

(** [clearTimeout(id)]: nothing happens for [undefined] or an id that is
    not pending. *)
Definition clearTimeout (id : option N) : M unit :=
  match id with
  | None => ret tt
  | Some i =>
    modify (fun w =>
      with_timers (filter (fun t => timer_id t ≠ i) (timers w)) w)
  end.

(** What a callback does when its timer fires. *)
Definition run_callback (cb : callback) (w : world) : world :=
  match cb with
  | HideMessage =>
    with_doc (fun d =>
      with_errorMessage
        ((fun el => {| textContent := textContent el; className := className el;
                       display := utf16 "none" |}) <$> errorMessage d) d) w
  | AbortRequest c => with_trace (trace w ++ [Aborted c]) w
  | Navigate target => with_href target w
  end.

(** A timer that fires leaves the table and runs its callback. *)
Definition fire (t : timer) (w : world) : world :=
  run_callback (action t)
    (with_timers (filter (fun t' => timer_id t' ≠ timer_id t) (timers w)) w).

Definition new_AbortController : M N :=
  c ← gets controllers;
  modify (with_controllers (c + 1));;
  ret c.

(** The DOMException of a store that takes no more: the text is
    Blink's. *)
Definition quota_exceeded (key : jsstring) : js_error :=
  {| err_name := utf16 "QuotaExceededError";
     err_message :=
       utf16 "Failed to execute 'setItem' on 'Storage': Setting the value of '"
         ++ key ++ utf16 "' exceeded the quota." |}.

(** [localStorage.setItem(key, val)] with [val] already a text: the entry
    is written, or the call throws and the store is as before. *)
Definition localStorage_setItem (key val : jsstring) : M unit :=
  room ← gets (fun w => storage_accepts w (localStorage w) key val);
  if room
  then modify (fun w => with_localStorage (<[key := val]> (localStorage w)) w)
  else throw (quota_exceeded key).

(** *** The network

    What the server side does with one request: the promise of [fetch]
    settles [ms] milliseconds after the call, with a response or with a
    rejection (a network failure), or it never settles by itself.  A
    response is there once its head has arrived; its body follows. *)

(** Reading the body to its end: [Read (Some j)] is the JSON text of
    [j]; [Read None] a body that is not JSON, or one whose reading
    fails; [Stalls] a body that never ends. *)
Inductive body_read :=
| Read (text : option json)
| Stalls.

Record response := { status : N; body : body_read }.

(** [res.ok] *)
Definition ok (r : response) : bool := (200 <=? status r) && (status r <=? 299).

Inductive settlement :=
| Responds (r : response)
| Rejects (e : js_error).

Inductive network :=
| SettlesAfter (ms : N) (s : settlement)
| NeverSettles.

(** The pending timer that aborts controller [c], if any. *)
Definition abort_timer (c : N) (w : world) : option timer :=
  head (filter (fun t => action t = AbortRequest c) (timers w)).

(** [await fetch(...)] with [signal] of controller [req_signal r]: the
    request leaves; the promise settles as the network says when that
    happens before the abort timer is due; otherwise the timer fires
    first, which aborts the request and rejects the promise. *)
Definition fetch (r : request) (net : network) : M response :=
  emit (Fetch r);;
  t ← gets (abort_timer (req_signal r));
  match net, t with
  | SettlesAfter ms (Responds res), None => ret res
  | SettlesAfter ms (Rejects e), None => throw e
  | NeverSettles, None => fun w => (Suspended, w)
  | SettlesAfter ms (Responds res), Some t =>
    if ms <? delay t then ret res
    else modify (fire t);; throw AbortError
  | SettlesAfter ms (Rejects e), Some t =>
    if ms <? delay t then throw e
    else modify (fire t);; throw AbortError
  | NeverSettles, Some t => modify (fire t);; throw AbortError
  end.

(** [await res.json()]: the promise is fulfilled with the parsed body,
    rejected when the body is not JSON, and left pending by a body that
    never ends. *)
Definition json_of (r : response) : M json :=
  match body r with
  | Read (Some j) => ret j
  | Read None => throw {| err_name := utf16 "SyntaxError";
                          err_message := utf16 "Unexpected token in JSON" |}
  | Stalls => fun w => (Suspended, w)
  end.

End Platform.
Import Platform.

(** ** The script *)

Module Auth.

Definition API_URL : jsstring := utf16 "https://check-be-production.up.railway.app".

(** *** Message system *)

Definition showMessage (message : jsstring) (type : option jsstring) : M unit :=
  let type := default (utf16 "error") type in
  el ← gets (fun w => errorMessage (doc w));
  match el with
  | None => ret tt
  | Some _ =>
    modify (with_doc (with_errorMessage
      (Some {| textContent := message;
               className := utf16 "message " ++ type;
               display := utf16 "block" |})));;
    t ← gets showMessage_t;
    clearTimeout t;;
    id ← setTimeout HideMessage 5000;
    modify (with_showMessage_t (Some id))
  end.

Definition showError (msg : jsstring) : M unit :=
  showMessage msg (Some (utf16 "error")).

Definition showSuccess (msg : jsstring) : M unit :=
  showMessage msg (Some (utf16 "success")).

(** *** Console mirror

    The argument of [safeShowMessage] is evaluated first: [args.join]
    converts every item to text, and when that throws neither the
    mirroring nor the original function is reached. *)

Definition safeShowMessage (msg type : jsstring) : M unit :=
  busy ← gets inShowMessage;
  if busy then ret tt
  else
    try_finally
      (modify (with_inShowMessage true);;
       showMessage msg (Some type))
      (modify (with_inShowMessage false)).

Definition console_log (args : list value) : M unit :=
  text ← lift (args_join (utf16 " ") args);
  safeShowMessage (utf16 "ℹ️ " ++ text) (utf16 "success");;
  emit (Console Log args).

Definition console_warn (args : list value) : M unit :=
  text ← lift (args_join (utf16 " ") args);
  safeShowMessage (utf16 "⚠️ " ++ text) (utf16 "error");;
  emit (Console Warn args).

Definition console_error (args : list value) : M unit :=
  text ← lift (args_join (utf16 " ") args);
  safeShowMessage (utf16 "❌ " ++ text) (utf16 "error");;
  emit (Console ErrorChannel args).

(** *** Safe fetch wrapper *)

(** The options object of a call, by the members the handlers pass. *)
Record options :=
  { opt_method : option jsstring;
    opt_body : option jsstring;
    opt_headers : option (gmap jsstring jsstring) }.

(** [{ "Content-Type": "application/json", ...(options.headers || {}) }] *)
Definition merged_headers (o : options) : gmap jsstring jsstring :=
  default ∅ (opt_headers o) ∪ {[ utf16 "Content-Type" := utf16 "application/json" ]}.

Definition is_truthy (v : option json) : bool :=
  match v with Some j => truthy j | None => false end.

Definition invalid_response : jsstring := utf16 "Invalid server response".
Definition timed_out : jsstring := utf16 "⏳ Request timed out. Please try again.".

(** The body of the [try] block after [await fetch(...)]; [new Error(x)]
    converts [x] to text. *)
Definition on_response (res : response) (id : N) : M json :=
  clearTimeout (Some id);;
  data ← try_catch (json_of res) (fun _ => throw (Error invalid_response));
  (if negb (ok res) then
     m ← lift (property (utf16 "message") data);
     x ← (if is_truthy m then ret m
          else
            e ← lift (property (utf16 "error") data);
            if is_truthy e then ret e
            else ret (Some (JStr (utf16 "HTTP " ++ decimal (status res)))));
     text ← lift (toString_opt x);
     throw (Error text)
   else ret tt);;
  ret data.

(** The [catch] block. *)
Definition on_failure (err : js_error) : M json :=
  if bool_decide (err_name err = utf16 "AbortError")
  then throw (Error timed_out)
  else throw err.

Definition safeFetch (url : jsstring) (o : options) (timeout : option N)
    (net : network) : M json :=
  let timeout := default 10000 timeout in
  controller ← new_AbortController;
  id ← setTimeout (AbortRequest controller) timeout;
  try_catch
    (res ← fetch {| req_url := url; req_method := opt_method o;
                    req_body := opt_body o; req_headers := merged_headers o;
                    req_signal := controller |} net;
     on_response res id)
    on_failure.

(** *** Button loading helper *)

Definition loading_markup : jsstring :=
  utf16 "<span class=" ++ [34] ++ utf16 "spinner" ++ [34]
    ++ utf16 "></span> Loading...".

Definition setButtonLoading (button : option button_id) (loading : option bool)
    (defaultText : option jsstring) : M unit :=
  let loading := default true loading in
  let defaultText := default (utf16 "Submit") defaultText in
  match button with
  | None => ret tt
  | Some b =>
    if loading then
      modify (with_doc (with_button b
        (Some {| disabled := true; content := InnerHTML loading_markup |})))
    else
      modify (with_doc (with_button b
        (Some {| disabled := false; content := TextContent defaultText |})))
  end.

(** *** DOM reads of the handlers *)

(** [document.getElementById(id)] for a button: a reference or [null]. *)
Definition getButton (b : button_id) : M (option button_id) :=
  gets (fun w => (fun _ => b) <$> get_button b (doc w)).

(** [document.getElementById(id).value] *)
Definition value_of (field : document -> option jsstring) : M jsstring :=
  v ← gets (fun w => field (doc w));
  match v with
  | Some s => ret s
  | None => throw (null_property (utf16 "value"))
  end.

(** [container.classList.remove("active")] *)
Definition container_remove_active : M unit :=
  c ← gets (fun w => container (doc w));
  match c with
  | Some _ => modify (with_doc (with_container (Some false)))
  | None => throw (null_property (utf16 "classList"))
  end.

(** [err.message || fallback] *)
Definition message_or (err : js_error) (fallback : jsstring) : jsstring :=
  if nonempty (err_message err) then err_message err else fallback.

Definition POST (body : json) : options :=
  {| opt_method := Some (utf16 "POST");
     opt_body := Some (JSON_stringify body);
     opt_headers := None |}.

(** *** Signup handler *)

Definition signup_body (username email password : jsstring) : json :=
  JObj [(utf16 "username", JStr username); (utf16 "email", JStr email);
        (utf16 "password", JStr password)].

(** The [try] block of the signup handler. *)
Definition signup_try (username email password : jsstring) (net : network) : M unit :=
  data ← safeFetch (API_URL ++ utf16 "/register")
            (POST (signup_body username email password)) None net;
  showSuccess (utf16 "✅ Registration successful! You can now log in.");;
  container_remove_active.

(** Its [catch] block. *)
Definition signup_catch (err : js_error) : M unit :=
  console_error [VStr (utf16 "Signup Error:"); VError err];;
  showError (message_or err (utf16 "❌ Registration failed. Try again.")).

Definition signupForm_submit (net : network) : M unit :=
  emit PreventDefault;;
  button ← getButton SignupBtn;
  username ← value_of registerUser;
  let username := trim username in
  email ← value_of registerEmail;
  let email := trim email in
  password ← value_of registerPass;
  if negb (nonempty username) || negb (nonempty email) || negb (nonempty password)
  then showError (utf16 "⚠️ All fields are required.")
  else if (length password <? 6)%nat
  then showError (utf16 "⚠️ Password must be at least 6 characters.")
  else
    setButtonLoading button (Some true) (Some (utf16 "Sign Up"));;
    try_finally
      (try_catch (signup_try username email password net) signup_catch)
      (setButtonLoading button (Some false) (Some (utf16 "Sign Up"))).

(** *** Login handler *)

Definition login_body (username password : jsstring) : json :=
  JObj [(utf16 "username", JStr username); (utf16 "password", JStr password)].

Definition no_token : jsstring := utf16 "❌ Login failed: No token received.".

(** The [try] block of the login handler; [setItem] converts its second
    argument to text before it writes. *)
Definition login_try (username password : jsstring) (net : network) : M unit :=
  data ← safeFetch (API_URL ++ utf16 "/login")
            (POST (login_body username password)) None net;
  token ← lift (property (utf16 "token") data);
  (if negb (is_truthy token) then throw (Error no_token) else ret tt);;
  text ← lift (toString_opt token);
  localStorage_setItem (utf16 "todo_token") text;;
  localStorage_setItem (utf16 "todo_username") username;;
  showSuccess (utf16 "✅ Login successful! Redirecting...");;
  setTimeout (Navigate (utf16 "app.html")) 1200;;
  ret tt.

(** Its [catch] block. *)
Definition login_catch (err : js_error) : M unit :=
  console_error [VStr (utf16 "Login Error:"); VError err];;
  showError (message_or err (utf16 "❌ Login failed. Check credentials.")).

Definition loginForm_submit (net : network) : M unit :=
  emit PreventDefault;;
  button ← getButton LoginBtn;
  username ← value_of loginUser;
  let username := trim username in
  password ← value_of loginPass;
  if negb (nonempty username) || negb (nonempty password)
  then showError (utf16 "⚠️ Username and password are required.")
  else
    setButtonLoading button (Some true) (Some (utf16 "Sign In"));;
    try_finally
      (try_catch (login_try username password net) login_catch)
      (setButtonLoading button (Some false) (Some (utf16 "Sign In"))).

End Auth.
Import Auth.

(** ** Invariants of the timer table *)

Module Inv.

(** Every pending abort timer belongs to a controller already created. *)
Definition fresh_controllers (w : world) : Prop :=
  Forall (fun t => match action t with
                   | AbortRequest c => c < controllers w
                   | _ => True
                   end) (timers w).

(** Timer ids were all handed out by [setTimeout]. *)
Definition fresh_timers (w : world) : Prop :=
  Forall (fun t => timer_id t < next_timer w) (timers w)
  ∧ from_option (fun i => i < next_timer w) True (showMessage_t w).

(** The only hide timer that can be pending is the one remembered in
    [showMessage._t]. *)
Definition hide_tracked (w : world) : Prop :=
  Forall (fun t => action t = HideMessage → showMessage_t w = Some (timer_id t))
    (timers w).

(** The pending hide timers. *)
Definition hide_timers (w : world) : list timer :=
  filter (fun t => action t = HideMessage) (timers w).

Definition well_formed (w : world) : Prop :=
  fresh_controllers w ∧ fresh_timers w ∧ hide_tracked w
  ∧ (length (hide_timers w) ≤ 1)%nat.

End Inv.
Import Inv.

(** ** Notions used to state and prove the properties *)

Module Logic.

(** A step relation holds from the state a computation starts in to the
    state it leaves. *)
Definition respects (R : relation world) {A} (m : M A) : Prop :=
  ∀ w, R w (snd (m w)).

(** A projection of the state that keeps its value. *)
Definition same {B} (p : world → B) : relation world :=
  fun w w' => p w' = p w.

(** The trace only grows. *)
Definition extends : relation world :=
  fun w w' => trace w `prefix_of` trace w'.

(** A property of states that, once true, stays true. *)
Definition keeps (I : world → Prop) : relation world :=
  fun w w' => I w → I w'.

(** The computation is never left waiting. *)
Definition total {A} (m : M A) : Prop :=
  ∀ w, fst (m w) ≠ Suspended.

(** *** Inputs and expected texts *)

(** The page as loaded with all its elements, the forms filled in with
    the given texts, before any handler ran, in a browser whose store is
    empty and takes every entry. *)
Definition loaded (regUser regEmail regPass logUser logPass : jsstring) : world :=
  {| doc :=
       {| errorMessage := Some {| textContent := []; className := utf16 "message";
                                  display := utf16 "none" |};
          container := Some true;
          signupBtn := Some {| disabled := false;
                               content := TextContent (utf16 "Sign Up") |};
          loginBtn := Some {| disabled := false;
                              content := TextContent (utf16 "Sign In") |};
          registerUser := Some regUser; registerEmail := Some regEmail;
          registerPass := Some regPass;
          loginUser := Some logUser; loginPass := Some logPass |};
     showMessage_t := None; inShowMessage := false;
     timers := []; next_timer := 1; controllers := 0;
     localStorage := ∅; storage_accepts := fun _ _ _ => true;
     href := utf16 "auth.html"; trace := [] |}.

(** A response that arrives [ms] milliseconds after the request and
    whose body is read to its end. *)
Definition arrives (ms : N) (st : N) (b : option json) : network :=
  SettlesAfter ms (Responds {| status := st; body := Read b |}).

(** A response whose head arrives after [ms] milliseconds and whose body
    never ends. *)
Definition stalls (ms : N) (st : N) : network :=
  SettlesAfter ms (Responds {| status := st; body := Stalls |}).

(** Whether the fetch settles before a timeout of [timeout] ms. *)
Definition in_time (net : network) (timeout : N) : bool :=
  match net with
  | SettlesAfter ms _ => ms <? timeout
  | NeverSettles => false
  end.

(** The value of [data.message || data.error || `HTTP ${res.status}`]
    for a body other than [null]: the first truthy of the two members,
    and the text "HTTP " with the status otherwise. *)
Definition error_value (data : json) (st : N) : json :=
  let fallback := JStr (utf16 "HTTP " ++ decimal st) in
  match data with
  | JObj ms =>
    default fallback
      (or_else (member (utf16 "message") ms)
         (or_else (member (utf16 "error") ms) (Some fallback)))
  | _ => fallback
  end.

(** What [new Error(v)] leaves to be thrown: the Error with the text of
    [v], or what the conversion of [v] to text throws. *)
Definition error_of (v : json) : js_error :=
  match toString v with
  | inr text => Error text
  | inl e => e
  end.

(** *** The stages of [safeFetch] *)

(** The request [safeFetch] builds in state [w]. *)
Definition request_of (url : jsstring) (o : options) (w : world) : request :=
  {| req_url := url; req_method := opt_method o; req_body := opt_body o;
     req_headers := merged_headers o; req_signal := controllers w |}.

(** The abort timer [safeFetch] sets in state [w]. *)
Definition abort_timer_of (timeout : option N) (w : world) : timer :=
  {| timer_id := next_timer w; delay := default 10000 timeout;
     action := AbortRequest (controllers w) |}.

(** The state with the controller created and the abort timer set. *)
Definition armed (timeout : option N) (w : world) : world :=
  with_next_timer (next_timer w + 1)
    (with_timers (timers w ++ [abort_timer_of timeout w])
       (with_controllers (controllers w + 1) w)).

(** The state once the request has left. *)
Definition sent (r : request) (w : world) : world :=
  with_trace (trace w ++ [Fetch r]) w.

(** The state after [clearTimeout(id)]. *)
Definition cleared (id : N) (w : world) : world :=
  with_timers (filter (fun t => timer_id t ≠ id) (timers w)) w.

(** Who wins: the settlement when it comes before timer [t] is due. *)
Definition race (net : network) (t : timer) : option settlement :=
  match net with
  | SettlesAfter ms s => if ms <? delay t then Some s else None
  | NeverSettles => None
  end.

(** What [safeFetch] makes of a response that arrived. *)
Definition settle (r : response) : outcome json :=
  match body r with
  | Stalls => Suspended
  | Read None => Throws (Error invalid_response)
  | Read (Some data) =>
    if ok r then Returns data
    else match data with
         | JNull => Throws (null_property (utf16 "message"))
         | _ => Throws (error_of (error_value data (status r)))
         end
  end.

(** What the [catch] block of [safeFetch] rethrows. *)
Definition rethrown (e : js_error) : js_error :=
  if bool_decide (err_name e = utf16 "AbortError") then Error timed_out else e.

(** The button with id [b], if the page has it. *)
Definition button_of (b : button_id) (w : world) : option button :=
  get_button b (doc w).

(** The reference [getElementById] gives for button [b]. *)
Definition button_ref (b : button_id) (w : world) : option button_id :=
  (fun _ => b) <$> button_of b w.

(** The state in which a handler starts its [try] block: the submit was
    intercepted and the button, if any, set to busy. *)
Definition entered (b : button_id) (w : world) : world :=
  snd (setButtonLoading (button_ref b w) (Some true) None
         (with_trace (trace w ++ [PreventDefault]) w)).

(** The wrapped console function of a channel, the mark it puts before
    the mirrored text, and the kind it shows it with. *)
Definition console (ch : channel) : list value → M unit :=
  match ch with
  | Log => console_log
  | Warn => console_warn
  | ErrorChannel => console_error
  end.

Definition mirror_mark (ch : channel) : jsstring :=
  match ch with
  | Log => utf16 "ℹ️ "
  | Warn => utf16 "⚠️ "
  | ErrorChannel => utf16 "❌ "
  end.

Definition mirror_kind (ch : channel) : jsstring :=
  match ch with
  | Log => utf16 "success"
  | Warn | ErrorChannel => utf16 "error"
  end.

(** *** The page over time

    One step of the page: a form is submitted and handled, something is
    logged, a pending timer fires, the user edits the document, or the
    store changes from outside (another page of the site, the browser). *)
Inductive step (w : world) : world → Prop :=
| step_signup (net : network) : step w (snd (signupForm_submit net w))
| step_login (net : network) : step w (snd (loginForm_submit net w))
| step_console (ch : channel) (args : list value) : step w (snd (console ch args w))
| step_timer (t : timer) : t ∈ timers w → step w (fire t w)
| step_edit (d : document) : step w (with_doc (fun _ => d) w)
| step_storage (s : gmap jsstring jsstring)
    (a : gmap jsstring jsstring → jsstring → jsstring → bool) :
    step w (with_storage_accepts a (with_localStorage s w)).

(** The states the page can be in after it was loaded as [w0]. *)
Definition reachable (w0 w : world) : Prop := rtc step w0 w.

(** The hide timer [showMessage] sets in state [w]. *)
Definition hide_timer_of (w : world) : timer :=
  {| timer_id := next_timer w; delay := 5000; action := HideMessage |}.

(** The button as [setButtonLoading] leaves it while the request runs. *)
Definition busy : button :=
  {| disabled := true; content := InnerHTML loading_markup |}.

(** The button back in its idle state with label [text]. *)
Definition idle (text : jsstring) : button :=
  {| disabled := false; content := TextContent text |}.

(** The status element showing [msg] with kind [type]. *)
Definition showing (msg type : jsstring) : status_element :=
  {| textContent := msg; className := utf16 "message " ++ type;
     display := utf16 "block" |}.

End Logic.
Import Logic.

(** ** The listeners around the forms *)

Module Views.

(** *** Toggle between forms

    [registerBtn?.addEventListener("click", ...)] and its twin for
    [loginBtn]: a listener exists when its button does; [container] is
    used as it is. *)

(** [container.classList.add("active")] *)
Definition container_add_active : M unit :=
  c ← gets (fun w => container (doc w));
  match c with
  | Some _ => modify (with_doc (with_container (Some true)))
  | None => throw (null_property (utf16 "classList"))
  end.

Definition register_click : M unit := container_add_active.

Definition login_click : M unit := container_remove_active.

(** *** Password toggle

    The part of the document this listener works on: the elements of
    class "toggle-password", in document order, each with its
    "data-target" attribute and the icon the script appends to it, and
    the "type" attribute of the element [getElementById] finds for an
    id ([None] inside: the element has no such attribute). *)

Record img := { src : jsstring; alt : jsstring; width : N; height : N }.

Record toggle := { data_target : option jsstring; icon : option img }.

Record password_page :=
  { toggles : list toggle;
    type_of : gmap jsstring (option jsstring) }.

Definition visible_png : jsstring := utf16 "../images/visible.png".
Definition closed_png : jsstring := utf16 "../images/closed.png".

(** The body of the [forEach], up to [appendChild]. *)
Definition new_icon : img :=
  {| src := visible_png; alt := utf16 "Toggle visibility"; width := 20; height := 20 |}.

Definition install_toggles (p : password_page) : password_page :=
  {| toggles := (fun t => {| data_target := data_target t; icon := Some new_icon |})
                  <$> toggles p;
     type_of := type_of p |}.

Definition with_src (s : jsstring) (i : img) : img :=
  {| src := s; alt := alt i; width := width i; height := height i |}.

(** The id [getElementById] looks up for the value of [getAttribute]:
    [null] is converted to the text "null". *)
Definition target_id (t : toggle) : jsstring :=
  default (utf16 "null") (data_target t).

(** A click on the toggle at index [i]; a toggle without icon has no
    listener yet. *)
Definition toggle_click (i : nat) (p : password_page) : password_page :=
  match toggles p !! i with
  | None => p
  | Some t =>
    match icon t with
    | None => p
    | Some ic =>
      match type_of p !! target_id t with
      | None => p
      | Some type =>
        if bool_decide (type = Some (utf16 "password")) then
          {| toggles := <[i := {| data_target := data_target t;
                                  icon := Some (with_src closed_png ic) |}]> (toggles p);
             type_of := <[target_id t := Some (utf16 "text")]> (type_of p) |}
        else
          {| toggles := <[i := {| data_target := data_target t;
                                  icon := Some (with_src visible_png ic) |}]> (toggles p);
             type_of := <[target_id t := Some (utf16 "password")]> (type_of p) |}
      end
    end
  end.

(** *** Navigation menu

    A class list is a list of tokens. *)

(** [classList.toggle(token)] *)
Definition classList_toggle (token : jsstring) (l : list jsstring) : list jsstring :=
  if bool_decide (token ∈ l) then filter (fun x => x ≠ token) l else l ++ [token].

(** [toggleNav] on the class list of [navLinks], [None] when the element
    is missing. *)
Definition toggleNav (navLinks : option (list jsstring)) : js_error + list jsstring :=
  match navLinks with
  | None => inl (null_property (utf16 "classList"))
  | Some l => inr (classList_toggle (utf16 "active") l)
  end.

(** The events [hamburger] listens to; both run [toggleNav]. *)
Inductive gesture := Click | TouchStart.

Definition hamburger_on (g : gesture) (navLinks : option (list jsstring)) :
    js_error + list jsstring :=
  match g with
  | Click => toggleNav navLinks
  | TouchStart => toggleNav navLinks
  end.

End Views.
Import Views.

(** ** Further notions for the properties of the handlers *)

Module Notions.

(** The status element and the "active" class of the container. *)
Definition status_of (w : world) : option status_element := errorMessage (doc w).
Definition container_of (w : world) : option bool := container (doc w).

Definition is_fetch (e : event) : bool :=
  match e with Fetch _ => true | _ => false end.

(** The events added from one state to the next hold no request. *)
Definition quiet : relation world :=
  fun w w' => ∃ rest, trace w' = trace w ++ rest
                      ∧ Forall (fun e => is_fetch e = false) rest.

(** The error [safeFetch] ends with, called without a timeout argument,
    for a behaviour of the network; [None] when it returns the body or
    waits for a body that never ends. *)
Definition request_failure (net : network) : option js_error :=
  match net with
  | NeverSettles => Some (Error timed_out)
  | SettlesAfter ms s =>
    if ms <? 10000 then
      match s with
      | Rejects e => Some (rethrown e)
      | Responds r =>
        match settle r with
        | Throws e => Some e
        | _ => None
        end
      end
    else Some (Error timed_out)
  end.

(** The response comes before a timeout of [timeout] ms and its body
    never ends. *)
Definition body_stalls (net : network) (timeout : N) : bool :=
  match net with
  | SettlesAfter ms (Responds r) =>
    (ms <? timeout) && match body r with Stalls => true | Read _ => false end
  | _ => false
  end.

(** The request a handler sends to [path] with [payload]. *)
Definition posted (path : jsstring) (payload : json) (w : world) : request :=
  {| req_url := API_URL ++ path;
     req_method := Some (utf16 "POST");
     req_body := Some (JSON_stringify payload);
     req_headers := {[ utf16 "Content-Type" := utf16 "application/json" ]};
     req_signal := controllers w |}.

(** The icon of a toggle shows the closed eye exactly when its target is
    shown as text. *)
Definition in_sync (t : toggle) (p : password_page) : Prop :=
  (type_of p !! target_id t = Some (Some (utf16 "text"))
   ∧ src <$> icon t = Some closed_png)
  ∨ (type_of p !! target_id t = Some (Some (utf16 "password"))
     ∧ src <$> icon t = Some visible_png).

End Notions.
Import Notions.

(** * Properties *)

Arguments utf16 : simpl never.
Arguments decimal : simpl never.
Opaque utf16 decimal.

(** ** Strings *)

Lemma trimStart_spaces (s : jsstring) :
  Forall (fun c => is_space c = true) s → trimStart s = [].
Proof. induction 1 as [|c r Hc _ IH]; [done|]. simpl. by rewrite Hc. Qed.

Lemma trim_spaces (s : jsstring) :
  Forall (fun c => is_space c = true) s → trim s = [].
Proof. intros H. unfold trim, trimEnd. by rewrite (trimStart_spaces s). Qed.

Lemma nonempty_true (s : jsstring) : s ≠ [] → nonempty s = true.
Proof. by destruct s. Qed.

(** ** Step relations through the monad *)

Section Stepwise.

Context (R : relation world) `{!PreOrder R}.

Lemma respects_ret {A} (a : A) : respects R (ret a).
Proof. intros w. unfold ret. simpl. reflexivity. Qed.

Lemma respects_throw {A} (e : js_error) : respects R (@throw A e).
Proof. intros w. unfold throw. simpl. reflexivity. Qed.

Lemma respects_gets {A} (f : world → A) : respects R (gets f).
Proof. intros w. unfold gets. simpl. reflexivity. Qed.

Lemma respects_lift {A} (x : js_error + A) : respects R (lift x).
Proof. destruct x; [apply respects_throw | apply respects_ret]. Qed.

Lemma respects_modify (f : world → world) :
  (∀ w, R w (f w)) → respects R (modify f).
Proof. intros H w. apply H. Qed.

Lemma respects_bind {A B} (m : M A) (k : A → M B) :
  respects R m → (∀ a, respects R (k a)) → respects R (bind m k).
Proof.
  intros Hm Hk w. unfold bind. specialize (Hm w).
  destruct (m w) as [[a| |] w1]; simpl in *; [|done..].
  etrans; [exact Hm | apply Hk].
Qed.

Lemma respects_try_catch {A} (m : M A) (h : js_error → M A) :
  respects R m → (∀ e, respects R (h e)) → respects R (try_catch m h).
Proof.
  intros Hm Hh w. unfold try_catch. specialize (Hm w).
  destruct (m w) as [[a|e|] w1]; simpl in *; [done| |done].
  etrans; [exact Hm | apply Hh].
Qed.

Lemma respects_try_finally {A} (m : M A) (f : M unit) :
  respects R m → respects R f → respects R (try_finally m f).
Proof.
  intros Hm Hf w. unfold try_finally. specialize (Hm w).
  destruct (m w) as [[a|e|] w1]; simpl in *; [| |done];
    specialize (Hf w1); destruct (f w1) as [[[]|e'|] w2]; simpl in *;
    (etrans; [exact Hm | exact Hf]).
Qed.

(** What the rest of a computation adds to its first step. *)
Lemma bind_after {A B} (m : M A) (k : A → M B) (w : world) :
  (∀ a, respects R (k a)) → R (snd (m w)) (snd (bind m k w)).
Proof.
  intros Hk. unfold bind. destruct (m w) as [[a|e|] w1]; simpl; [apply Hk|done..].
Qed.

Lemma try_catch_after {A} (m : M A) (h : js_error → M A) (w : world) :
  (∀ e, respects R (h e)) → R (snd (m w)) (snd (try_catch m h w)).
Proof.
  intros Hh. unfold try_catch. destruct (m w) as [[a|e|] w1]; simpl; [done|apply Hh|done].
Qed.

Lemma try_finally_after {A} (m : M A) (f : M unit) (w : world) :
  respects R f → R (snd (m w)) (snd (try_finally m f w)).
Proof.
  intros Hf. unfold try_finally. specialize (Hf (snd (m w))).
  destruct (m w) as [[a|e|] w1]; simpl in *; [| |done];
    by destruct (f w1) as [[[]|e'|] w2].
Qed.

End Stepwise.

#[export] Instance same_preorder {B} (p : world → B) : PreOrder (same p).
Proof. split; [by intros w | intros w1 w2 w3; unfold same; congruence]. Qed.

#[export] Instance extends_preorder : PreOrder extends.
Proof.
  split.
  - intros w. unfold extends. reflexivity.
  - intros w1 w2 w3 H12 H23. unfold extends in *. by etrans.
Qed.

#[export] Instance keeps_preorder (I : world → Prop) : PreOrder (keeps I).
Proof. split; [intros w; by unfold keeps | intros w1 w2 w3; unfold keeps; auto]. Qed.

(** ** Never left waiting *)

Lemma total_ret {A} (a : A) : total (ret a).
Proof. by intros w. Qed.

Lemma total_throw {A} (e : js_error) : total (@throw A e).
Proof. by intros w. Qed.

Lemma total_gets {A} (f : world → A) : total (gets f).
Proof. by intros w. Qed.

Lemma total_modify (f : world → world) : total (modify f).
Proof. by intros w. Qed.

Lemma total_lift {A} (x : js_error + A) : total (lift x).
Proof. by destruct x; intros w. Qed.

Lemma total_bind {A B} (m : M A) (k : A → M B) :
  total m → (∀ a, total (k a)) → total (bind m k).
Proof.
  intros Hm Hk w. unfold bind. specialize (Hm w).
  destruct (m w) as [[a|e|] w1]; simpl in *; [apply Hk|done..].
Qed.

Lemma total_try_catch {A} (m : M A) (h : js_error → M A) :
  total m → (∀ e, total (h e)) → total (try_catch m h).
Proof.
  intros Hm Hh w. unfold try_catch. specialize (Hm w).
  destruct (m w) as [[a|e|] w1]; simpl in *; [done|apply Hh|done].
Qed.

Lemma total_try_finally {A} (m : M A) (f : M unit) :
  total m → total f → total (try_finally m f).
Proof.
  intros Hm Hf w. unfold try_finally. specialize (Hm w).
  destruct (m w) as [[a|e|] w1]; simpl in *; [| |done];
    specialize (Hf w1); by destruct (f w1) as [[[]|e'|] w2].
Qed.

(** ** Stepping through a sequence *)

Lemma bind_returns {A B} (m : M A) (k : A → M B) (w w1 : world) (a : A) :
  m w = (Returns a, w1) → bind m k w = k a w1.
Proof. intros H. unfold bind. by rewrite H. Qed.

Lemma bind_throws {A B} (m : M A) (k : A → M B) (w w1 : world) (e : js_error) :
  m w = (Throws e, w1) → bind m k w = (Throws e, w1).
Proof. intros H. unfold bind. by rewrite H. Qed.

(** A [try] block that settles, with a [catch] block that returns, never
    lets an error out. *)
Lemma try_catch_contained (m : M unit) (h : js_error → M unit) (w : world) :
  fst (m w) ≠ Suspended → (∀ e w1, fst (h e w1) = Returns tt) →
  fst (try_catch m h w) = Returns tt.
Proof.
  intros Hm Hh. unfold try_catch.
  destruct (m w) as [[[]|e|] w1]; simpl in *; [done|apply Hh|done].
Qed.

(** ** Conversion to text *)

(** Induction on a JSON value with the items of an array at hand. *)
Lemma json_items_ind (P : json → Prop) :
  P JNull → (∀ b, P (JBool b)) → (∀ n, P (JNum n)) → (∀ s, P (JStr s)) →
  (∀ items, Forall P items → P (JArr items)) → (∀ ms, P (JObj ms)) →
  ∀ j, P j.
Proof.
  intros Hnull Hbool Hnum Hstr Harr Hobj. fix IH 1.
  intros [|b|n|s|items|ms]; [done..| |done].
  apply Harr. induction items as [|x items IHitems]; constructor; [apply IH | exact IHitems].
Qed.

Lemma collect_throws {A} (l : list (js_error + A)) (e : js_error) :
  collect l = inl e → inl e ∈ l.
Proof.
  induction l as [|[e'|a] l IH]; simpl; [done| |].
  - intros [= ->]. apply elem_of_cons. by left.
  - destruct (collect l); [|done]. intros [= ->]. apply elem_of_cons. right. by apply IH.
Qed.

(** The one error a conversion to text ends with. *)
Lemma toString_throws (j : json) (e : js_error) :
  toString j = inl e → e = not_primitive.
Proof.
  revert e. induction j as [|b|n|s|items IH|ms] using json_items_ind;
    intros e; simpl; try done.
  - by destruct b.
  - destruct (collect _) as [e'|texts] eqn:E; [|done]. intros [= ->].
    apply collect_throws in E. apply list_elem_of_fmap in E as (x & Hx & Hin).
    pose proof (proj1 (Forall_forall _ _) IH x Hin e) as Hx'.
    destruct x; try done; by apply Hx'.
  - destruct (has_own _ ms); [|done]. by intros [= <-].
Qed.

(** ** The network wrapper *)

Lemma no_stale_abort (w : world) :
  fresh_controllers w →
  filter (fun t => action t = AbortRequest (controllers w)) (timers w) = [].
Proof.
  unfold fresh_controllers. induction 1 as [|x l Hx _ IH]; [done|].
  rewrite filter_cons. destruct (decide _) as [E|E]; [|exact IH].
  rewrite E in Hx. lia.
Qed.

Lemma armed_abort_timer (timeout : option N) (w : world) :
  fresh_controllers w →
  abort_timer (controllers w) (armed timeout w) = Some (abort_timer_of timeout w).
Proof.
  intros Hw. unfold abort_timer, armed. simpl.
  rewrite filter_app, no_stale_abort by done. simpl.
  rewrite filter_cons. simpl. by rewrite decide_True.
Qed.

(** Whatever the table held, an abort timer is pending once armed. *)
Lemma armed_some_timer (timeout : option N) (w : world) :
  is_Some (abort_timer (controllers w) (armed timeout w)).
Proof.
  unfold abort_timer, armed. simpl. rewrite filter_app.
  destruct (filter _ (timers w)) as [|t ts]; simpl; [|by eexists].
  rewrite filter_cons. simpl. rewrite decide_True by done. by eexists.
Qed.

Lemma fetch_race (r : request) (net : network) (w : world) (t : timer) :
  abort_timer (req_signal r) w = Some t →
  fetch r net w =
    match race net t with
    | Some (Responds res) => (Returns res, sent r w)
    | Some (Rejects e) => (Throws e, sent r w)
    | None => (Throws AbortError, fire t (sent r w))
    end.
Proof.
  intros Ht. unfold fetch, emit, bind, gets, modify. simpl.
  change (abort_timer (req_signal r) (with_trace _ w))
    with (abort_timer (req_signal r) w).
  rewrite Ht.
  destruct net as [ms [res|e]|]; simpl; try destruct (ms <? delay t); reflexivity.
Qed.

Lemma safeFetch_unfold (url : jsstring) (o : options) (timeout : option N)
    (net : network) (w : world) :
  safeFetch url o timeout net w =
  try_catch (res ← fetch (request_of url o w) net; on_response res (next_timer w))
    on_failure (armed timeout w).
Proof. reflexivity. Qed.

(** A response that arrived is turned into the result by [settle]. *)
Lemma on_response_run (res : response) (id : N) (w : world) :
  on_response res id w = (settle res, cleared id w).
Proof.
  unfold on_response, settle, json_of, clearTimeout, try_catch, bind, modify, ret, throw.
  simpl. destruct (body res) as [[data|]|]; simpl; [|done..].
  destruct (ok res); simpl; [done|].
  unfold error_of, error_value, or_else.
  destruct data as [|b|n|s|l|ms]; simpl; try done.
  destruct (member (utf16 "message") ms) as [m|]; simpl.
  - destruct (truthy m); simpl.
    + by destruct (toString m).
    + destruct (member (utf16 "error") ms) as [e|]; simpl; [|done].
      destruct (truthy e); simpl; [|done]. by destruct (toString e).
  - destruct (member (utf16 "error") ms) as [e|]; simpl; [|done].
    destruct (truthy e); simpl; [|done]. by destruct (toString e).
Qed.

Lemma on_failure_run (e : js_error) (w : world) :
  on_failure e w = (Throws (rethrown e), w).
Proof. unfold on_failure, rethrown. by destruct (bool_decide _). Qed.

Lemma rethrown_Error (msg : jsstring) : rethrown (Error msg) = Error msg.
Proof.
  unfold rethrown. rewrite bool_decide_false; [done|]. simpl. by vm_compute.
Qed.

Lemma rethrown_TypeError (msg : jsstring) : rethrown (TypeError msg) = TypeError msg.
Proof.
  unfold rethrown. rewrite bool_decide_false; [done|]. simpl. by vm_compute.
Qed.

Lemma rethrown_AbortError : rethrown AbortError = Error timed_out.
Proof. unfold rethrown. rewrite bool_decide_true; [done|]. by vm_compute. Qed.

Lemma rethrown_error_of (v : json) : rethrown (error_of v) = error_of v.
Proof.
  unfold error_of. destruct (toString v) as [e|text] eqn:E; [|apply rethrown_Error].
  apply toString_throws in E as ->. apply rethrown_TypeError.
Qed.

Lemma rethrown_settle (res : response) (e : js_error) :
  settle res = Throws e → rethrown e = e.
Proof.
  unfold settle. intros H.
  destruct (body res) as [[data|]|]; [destruct (ok res); [done|]; destruct data| |];
    simplify_eq;
    first [apply rethrown_Error | apply rethrown_TypeError | apply rethrown_error_of].
Qed.

(** The complete behaviour of [safeFetch] on a well-formed timer table. *)
Lemma safeFetch_spec (url : jsstring) (o : options) (timeout : option N)
    (net : network) (w : world) :
  fresh_controllers w →
  let r := request_of url o w in
  let t := abort_timer_of timeout w in
  safeFetch url o timeout net w =
    match race net t with
    | Some (Responds res) => (settle res, cleared (timer_id t) (sent r (armed timeout w)))
    | Some (Rejects e) => (Throws (rethrown e), sent r (armed timeout w))
    | None => (Throws (Error timed_out), fire t (sent r (armed timeout w)))
    end.
Proof.
  intros Hw r t. rewrite safeFetch_unfold. fold r.
  unfold try_catch, bind.
  rewrite (fetch_race r net (armed timeout w) t) by (by apply armed_abort_timer).
  destruct (race net t) as [[res|e]|].
  - rewrite on_response_run. simpl.
    destruct (settle res) as [data|e|] eqn:E; [done| |done].
    rewrite on_failure_run. by rewrite (rethrown_settle res e).
  - by rewrite on_failure_run.
  - by rewrite on_failure_run, rethrown_AbortError.
Qed.

Lemma settle_suspended (res : response) :
  settle res = Suspended ↔ body res = Stalls.
Proof.
  unfold settle. destruct (body res) as [[data|]|]; [|done..].
  destruct (ok res); [done|]. by destruct data.
Qed.

(** [safeFetch] is left waiting by a body that never ends, and by
    nothing else: the abort timer ends every other wait. *)
Lemma safeFetch_suspended (url : jsstring) (o : options) (timeout : option N)
    (net : network) (w : world) :
  fresh_controllers w →
  fst (safeFetch url o timeout net w) = Suspended
  ↔ body_stalls net (default 10000 timeout) = true.
Proof.
  intros Hw. rewrite safeFetch_spec by done.
  destruct net as [ms [res|e]|]; simpl; [| |done].
  - destruct (ms <? default 10000 timeout); simpl; [|done].
    rewrite settle_suspended. by destruct (body res).
  - by destruct (ms <? default 10000 timeout).
Qed.

Lemma race_arrives_in_time (ms st : N) (b : option json) (timeout : option N) (w : world) :
  ms < default 10000 timeout →
  race (arrives ms st b) (abort_timer_of timeout w)
  = Some (Responds {| status := st; body := Read b |}).
Proof. intros H. unfold race, arrives. simpl. by rewrite (proj2 (N.ltb_lt _ _) H). Qed.

Lemma not_ok (st : N) (b : body_read) :
  ¬ (200 ≤ st ≤ 299) → ok {| status := st; body := b |} = false.
Proof.
  intros H. unfold ok. simpl. apply andb_false_iff.
  destruct (decide (200 ≤ st)); [right|left]; apply N.leb_gt; lia.
Qed.

Lemma is_ok (st : N) (b : body_read) :
  200 ≤ st ≤ 299 → ok {| status := st; body := b |} = true.
Proof. intros H. unfold ok. simpl. apply andb_true_iff. split; apply N.leb_le; lia. Qed.

Lemma safeFetch_arrived (url : jsstring) (o : options) (ms st : N)
    (b : option json) (w : world) :
  fresh_controllers w → ms < 10000 →
  safeFetch url o None (arrives ms st b) w
  = (settle {| status := st; body := Read b |},
     cleared (next_timer w) (sent (request_of url o w) (armed None w))).
Proof.
  intros Hw Hms. rewrite safeFetch_spec by done.
  by rewrite race_arrives_in_time.
Qed.

(** ** Proof automation for the script *)

Ltac unfold_script :=
  unfold showError, showSuccess, showMessage, console_error, console_warn,
    console_log, safeShowMessage, setButtonLoading, container_remove_active,
    getButton, value_of, localStorage_setItem, new_AbortController,
    setTimeout, clearTimeout, emit.

Ltac total_tac :=
  repeat first
    [ apply total_ret | apply total_throw | apply total_gets
    | apply total_modify | apply total_lift
    | apply total_bind; [|intros ?]
    | apply total_try_catch; [|intros ?]
    | apply total_try_finally
    | match goal with
      | |- total (match ?x with _ => _ end) => destruct x
      | |- total (let x := _ in _) => cbv zeta
      end
    | progress unfold_script ].

Ltac respects_leaf :=
  intros ?; unfold same, extends, fire, run_callback; simpl;
  repeat case_match; simpl;
  first [ reflexivity | by apply prefix_app_r | done ].

Ltac respects_tac :=
  repeat first
    [ match goal with
      | |- respects ?R (ret _) => apply (respects_ret R)
      | |- respects ?R (throw _) => apply (respects_throw R)
      | |- respects ?R (gets _) => apply (respects_gets R)
      | |- respects ?R (lift _) => apply (respects_lift R)
      | |- respects ?R (bind _ _) => apply (respects_bind R); [|intros ?]
      | |- respects ?R (try_catch _ _) => apply (respects_try_catch R); [|intros ?]
      | |- respects ?R (try_finally _ _) => apply (respects_try_finally R)
      | |- respects ?R (modify _) => apply (respects_modify R); respects_leaf
      | |- respects _ (match ?x with _ => _ end) => destruct x
      | |- respects _ (let x := _ in _) => cbv zeta
      | |- respects _ (fun w => (_, w)) => respects_leaf
      end
    | progress unfold_script ].

(** ** What the network wrapper leaves alone and what it adds *)

Lemma safeFetch_storage url o timeout net :
  respects (same localStorage) (safeFetch url o timeout net).
Proof. unfold safeFetch, on_response, on_failure, fetch, json_of. respects_tac. Qed.

Lemma safeFetch_button b url o timeout net :
  respects (same (button_of b)) (safeFetch url o timeout net).
Proof. unfold safeFetch, on_response, on_failure, fetch, json_of. respects_tac. Qed.

Lemma safeFetch_extends url o timeout net :
  respects extends (safeFetch url o timeout net).
Proof. unfold safeFetch, on_response, on_failure, fetch, json_of. respects_tac. Qed.

Lemma fetch_trace (r : request) (net : network) (w : world) :
  ∃ rest, trace (snd (fetch r net w)) = trace w ++ Fetch r :: rest.
Proof.
  unfold fetch, emit. erewrite bind_returns by reflexivity.
  erewrite bind_returns by reflexivity.
  destruct net as [ms [res|e]|], (abort_timer _ _) as [t|];
    try destruct (ms <? delay t);
    unfold bind, modify, throw, ret, fire, run_callback; simpl;
    try destruct (action t); simpl;
    eexists; rewrite <- ?app_assoc; simpl; reflexivity.
Qed.

Lemma on_response_trace res id : respects (same trace) (on_response res id).
Proof. unfold on_response, json_of. respects_tac. Qed.

Lemma on_failure_trace e : respects (same trace) (on_failure e).
Proof. unfold on_failure. respects_tac. Qed.

(** The request [safeFetch] builds always leaves the page. *)
Lemma safeFetch_trace (url : jsstring) (o : options) (timeout : option N)
    (net : network) (w : world) :
  ∃ rest, trace (snd (safeFetch url o timeout net w))
          = trace w ++ Fetch (request_of url o w) :: rest.
Proof.
  rewrite safeFetch_unfold. unfold try_catch, bind.
  destruct (fetch_trace (request_of url o w) net (armed timeout w)) as [rest Hrest].
  exists rest. change (trace w) with (trace (armed timeout w)). rewrite <- Hrest.
  destruct (fetch _ net _) as [[res|e|] w1]; simpl.
  - destruct (on_response res (next_timer w) w1) as [[data|e|] w2] eqn:E; simpl.
    + change w2 with (snd (Returns data, w2)). rewrite <- E. apply on_response_trace.
    + rewrite on_failure_trace.
      change w2 with (snd (@Throws json e, w2)). rewrite <- E. apply on_response_trace.
    + change w2 with (snd (@Suspended json, w2)). rewrite <- E. apply on_response_trace.
  - apply on_failure_trace.
  - done.
Qed.

(** ** Message display *)

Lemma showMessage_run msg ty w :
  showMessage msg ty w = (Returns tt, snd (showMessage msg ty w)).
Proof.
  unfold showMessage, clearTimeout, setTimeout, bind, gets, modify, ret. simpl.
  destruct (errorMessage (doc w)); [destruct (showMessage_t w)|]; reflexivity.
Qed.

Lemma showMessage_shows msg ty w :
  errorMessage (doc (snd (showMessage msg ty w)))
  = (fun _ => showing msg (default (utf16 "error") ty)) <$> errorMessage (doc w).
Proof.
  unfold showMessage, clearTimeout, setTimeout, bind, gets, modify, ret. simpl.
  destruct (errorMessage (doc w)) eqn:E; [destruct (showMessage_t w)|];
    simpl; by rewrite ?E.
Qed.

Lemma showMessage_storage msg ty : respects (same localStorage) (showMessage msg ty).
Proof. respects_tac. Qed.

Lemma showMessage_trace msg ty : respects (same trace) (showMessage msg ty).
Proof. respects_tac. Qed.

Lemma showMessage_button b msg ty : respects (same (button_of b)) (showMessage msg ty).
Proof. respects_tac. Qed.

Lemma showMessage_button_of b msg ty w :
  button_of b (snd (showMessage msg ty w)) = button_of b w.
Proof. apply showMessage_button. Qed.

Lemma safeShowMessage_run msg ty w :
  safeShowMessage msg ty w = (Returns tt, snd (safeShowMessage msg ty w)).
Proof.
  unfold safeShowMessage, try_finally, bind, gets, modify.
  destruct (inShowMessage w); simpl; [done|]. by rewrite showMessage_run.
Qed.

Lemma safeShowMessage_trace msg ty : respects (same trace) (safeShowMessage msg ty).
Proof. respects_tac. Qed.

(** A text and an Error object always join. *)
Lemma report_join (sep label : jsstring) (err : js_error) :
  args_join sep [VStr label; VError err] = inr (label ++ sep ++ error_toString err).
Proof. reflexivity. Qed.

Lemma console_error_run label err w :
  console_error [VStr label; VError err] w
  = (Returns tt, snd (console_error [VStr label; VError err] w)).
Proof.
  unfold console_error. rewrite report_join.
  unfold lift, safeShowMessage, try_finally, emit, bind, ret, gets, modify.
  destruct (inShowMessage w); simpl; [done|].
  by rewrite showMessage_run.
Qed.

Lemma console_error_trace label err w :
  trace (snd (console_error [VStr label; VError err] w))
  = trace w ++ [Console ErrorChannel [VStr label; VError err]].
Proof.
  unfold console_error. rewrite report_join.
  erewrite bind_returns by reflexivity.
  erewrite bind_returns by apply safeShowMessage_run.
  unfold emit, modify. simpl. by rewrite safeShowMessage_trace.
Qed.

(** A report never removes the status element, nor adds one. *)
Lemma console_error_element label err w :
  is_Some (errorMessage (doc (snd (console_error [VStr label; VError err] w))))
  ↔ is_Some (errorMessage (doc w)).
Proof.
  unfold console_error. rewrite report_join.
  unfold lift, safeShowMessage, try_finally, emit, bind, ret, gets, modify.
  destruct (inShowMessage w); simpl; [done|]. rewrite showMessage_run. simpl.
  rewrite showMessage_shows. simpl. by rewrite fmap_is_Some.
Qed.

(** ** The invariant of the timer table *)

Lemma loaded_well_formed (ru re rp lu lp : jsstring) :
  well_formed (loaded ru re rp lu lp).
Proof.
  unfold well_formed, fresh_controllers, fresh_timers, hide_tracked, hide_timers.
  simpl. repeat split; first [lia | constructor].
Qed.

Lemma loaded_fresh_controllers (ru re rp lu lp : jsstring) :
  fresh_controllers (loaded ru re rp lu lp).
Proof. apply loaded_well_formed. Qed.

Lemma fresh_controllers_ext (w w' : world) :
  timers w' = timers w → controllers w' = controllers w →
  fresh_controllers w → fresh_controllers w'.
Proof. unfold fresh_controllers. by intros -> ->. Qed.

Lemma sublist_filter_mono {A} (P : A → Prop) `{!∀ x, Decision (P x)} (l1 l2 : list A) :
  l1 `sublist_of` l2 → filter P l1 `sublist_of` filter P l2.
Proof.
  induction 1 as [|x l1 l2 _ IH|x l1 l2 _ IH]; [done| |];
    rewrite !filter_cons; destruct (decide (P x));
    auto using sublist_skip, sublist_cons.
Qed.

Lemma Forall_sublist_of {A} (P : A → Prop) (l1 l2 : list A) :
  l1 `sublist_of` l2 → Forall P l2 → Forall P l1.
Proof.
  intros Hsub H. apply Forall_forall. intros x Hx.
  apply (proj1 (Forall_forall _ _) H). by eapply elem_of_sublist.
Qed.

(** Timers may leave the table and the counters may grow. *)
Lemma well_formed_shrink (w w' : world) :
  timers w' `sublist_of` timers w →
  controllers w ≤ controllers w' →
  next_timer w ≤ next_timer w' →
  showMessage_t w' = showMessage_t w →
  well_formed w → well_formed w'.
Proof.
  intros Hsub Hc Hn Ht (H1 & [H2 H2'] & H3 & H4).
  unfold well_formed, fresh_controllers, fresh_timers, hide_tracked, hide_timers in *.
  rewrite Ht. repeat split.
  - eapply Forall_impl; [exact (Forall_sublist_of _ _ _ Hsub H1)|].
    intros t. simpl. destruct (action t); [done| |done]. lia.
  - eapply Forall_impl; [exact (Forall_sublist_of _ _ _ Hsub H2)|]. simpl. intros. lia.
  - destruct (showMessage_t w); simpl in *; [lia|done].
  - exact (Forall_sublist_of _ _ _ Hsub H3).
  - etrans; [|exact H4]. apply sublist_length. by apply sublist_filter_mono.
Qed.

(** [setTimeout] of a callback other than the hide callback. *)
Lemma well_formed_add (w w' : world) (ts : list timer) (t : timer) :
  timers w' = ts ++ [t] → ts `sublist_of` timers w →
  timer_id t = next_timer w → next_timer w' = next_timer w + 1 →
  controllers w ≤ controllers w' →
  showMessage_t w' = showMessage_t w →
  match action t with
  | HideMessage => False
  | AbortRequest c => c < controllers w'
  | Navigate _ => True
  end →
  well_formed w → well_formed w'.
Proof.
  intros Hts Hsub Hid Hn Hc Ht Hact (H1 & [H2 H2'] & H3 & H4).
  unfold well_formed, fresh_controllers, fresh_timers, hide_tracked, hide_timers in *.
  rewrite Hts, Ht, Hn. repeat split.
  - apply Forall_app. split; [|by apply Forall_singleton; destruct (action t)].
    eapply Forall_impl; [exact (Forall_sublist_of _ _ _ Hsub H1)|].
    intros x. simpl. destruct (action x); [done| |done]. lia.
  - apply Forall_app. split; [|apply Forall_singleton; lia].
    eapply Forall_impl; [exact (Forall_sublist_of _ _ _ Hsub H2)|]. simpl. intros. lia.
  - destruct (showMessage_t w); simpl in *; [lia|done].
  - apply Forall_app. split; [exact (Forall_sublist_of _ _ _ Hsub H3)|].
    apply Forall_singleton. intros E. by rewrite E in Hact.
  - rewrite filter_app, filter_cons_False, filter_nil, app_nil_r.
    + etrans; [|exact H4]. apply sublist_length. by apply sublist_filter_mono.
    + intros E. by rewrite E in Hact.
Qed.

Lemma filter_hide_cleared (i : N) (ts : list timer) :
  Forall (fun t => action t = HideMessage → Some i = Some (timer_id t)) ts →
  filter (fun t => action t = HideMessage) (filter (fun t => timer_id t ≠ i) ts) = [].
Proof.
  induction 1 as [|t ts Ht _ IH]; [done|].
  rewrite filter_cons. destruct (decide (timer_id t ≠ i)) as [Hne|Heq]; [|exact IH].
  rewrite filter_cons. destruct (decide (action t = HideMessage)) as [Hh|Hh]; [|exact IH].
  specialize (Ht Hh). by simplify_eq.
Qed.

Lemma filter_hide_none (ts : list timer) :
  Forall (fun t => action t = HideMessage → @None N = Some (timer_id t)) ts →
  filter (fun t => action t = HideMessage) ts = [].
Proof.
  induction 1 as [|t ts Ht _ IH]; [done|].
  rewrite filter_cons. destruct (decide (action t = HideMessage)) as [Hh|Hh]; [|exact IH].
  by specialize (Ht Hh).
Qed.

Lemma showMessage_keeps msg ty : respects (keeps well_formed) (showMessage msg ty).
Proof.
  intros w (H1 & [H2 H2'] & H3 & H4).
  unfold showMessage, clearTimeout, setTimeout, bind, gets, modify, ret. simpl.
  destruct (errorMessage (doc w)) as [el|]; [|done].
  unfold well_formed, fresh_controllers, fresh_timers, hide_tracked, hide_timers in *.
  assert (∀ l, l `sublist_of` timers w →
     filter (fun t => action t = HideMessage) l = [] →
     let w' := with_showMessage_t (Some (next_timer w))
                 (with_next_timer (next_timer w + 1)
                    (with_timers (l ++ [hide_timer_of w])
                       (with_doc (with_errorMessage
                          (Some (showing msg (default (utf16 "error") ty)))) w))) in
     Forall (fun t => match action t with
                      | AbortRequest c => c < controllers w' | _ => True end) (timers w')
     ∧ (Forall (fun t => timer_id t < next_timer w') (timers w')
        ∧ from_option (fun i => i < next_timer w') True (showMessage_t w'))
     ∧ Forall (fun t => action t = HideMessage → showMessage_t w' = Some (timer_id t))
         (timers w')
     ∧ (length (filter (fun t => action t = HideMessage) (timers w')) ≤ 1)%nat) as Hgen.
  { intros l Hsub Hnone. simpl. repeat split.
    - apply Forall_app. split; [|by apply Forall_singleton].
      exact (Forall_sublist_of _ _ _ Hsub H1).
    - apply Forall_app. split; [|apply Forall_singleton; simpl; lia].
      eapply Forall_impl; [exact (Forall_sublist_of _ _ _ Hsub H2)|]. simpl. intros. lia.
    - lia.
    - apply Forall_app. split; [|by apply Forall_singleton].
      apply Forall_forall. intros t Hin Hh.
      assert (t ∈ filter (fun t => action t = HideMessage) l) as Hbad
        by (by apply list_elem_of_filter).
      rewrite Hnone in Hbad. by apply elem_of_nil in Hbad.
    - rewrite filter_app, Hnone. simpl. lia. }
  destruct (showMessage_t w) as [i|] eqn:Ei; simpl.
  - apply (Hgen (filter (fun t => timer_id t ≠ i) (timers w)));
      [apply sublist_filter | by apply filter_hide_cleared].
  - apply (Hgen (timers w)); [done | by apply filter_hide_none].
Qed.

Lemma fire_keeps (t : timer) (w : world) : well_formed w → well_formed (fire t w).
Proof.
  apply well_formed_shrink; unfold fire, run_callback;
    destruct (action t); simpl; first [apply sublist_filter | done].
Qed.

Ltac keeps_leaf :=
  intros ?; unfold keeps; first
    [ apply fire_keeps
    | apply well_formed_shrink; simpl; first [apply sublist_filter | done] ].

Lemma armed_keeps timeout w : well_formed w → well_formed (armed timeout w).
Proof.
  apply (well_formed_add w (armed timeout w) (timers w) (abort_timer_of timeout w));
    simpl; first [done | lia].
Qed.

Lemma safeFetch_keeps url o timeout net :
  respects (keeps well_formed) (safeFetch url o timeout net).
Proof.
  intros w Hw. rewrite safeFetch_unfold.
  revert Hw. intros Hw%(armed_keeps timeout). revert Hw.
  generalize (armed timeout w) as w1.
  change (respects (keeps well_formed)
    (try_catch (res ← fetch (request_of url o w) net; on_response res (next_timer w))
       on_failure)).
  unfold fetch, on_response, on_failure, json_of, emit, clearTimeout.
  repeat first
    [ match goal with
      | |- respects ?R (ret _) => apply (respects_ret R)
      | |- respects ?R (throw _) => apply (respects_throw R)
      | |- respects ?R (gets _) => apply (respects_gets R)
      | |- respects ?R (lift _) => apply (respects_lift R)
      | |- respects ?R (bind _ _) => apply (respects_bind R); [|intros ?]
      | |- respects ?R (try_catch _ _) => apply (respects_try_catch R); [|intros ?]
      | |- respects ?R (modify _) => apply (respects_modify R); keeps_leaf
      | |- respects _ (match ?x with _ => _ end) => destruct x
      | |- respects _ (fun w => (_, w)) => by intros ?
      end ].
Qed.

Lemma setTimeout_navigate_keeps target ms :
  respects (keeps well_formed) (setTimeout (Navigate target) ms).
Proof.
  intros w. unfold keeps, setTimeout, bind, gets, modify, ret. simpl.
  by apply (well_formed_add w _ (timers w)
              {| timer_id := next_timer w; delay := ms; action := Navigate target |}).
Qed.

Ltac keeps_tac :=
  repeat first
    [ apply showMessage_keeps | apply safeFetch_keeps
    | apply setTimeout_navigate_keeps
    | match goal with
      | |- respects ?R (ret _) => apply (respects_ret R)
      | |- respects ?R (throw _) => apply (respects_throw R)
      | |- respects ?R (gets _) => apply (respects_gets R)
      | |- respects ?R (lift _) => apply (respects_lift R)
      | |- respects ?R (bind _ _) => apply (respects_bind R); [|intros ?]
      | |- respects ?R (try_catch _ _) => apply (respects_try_catch R); [|intros ?]
      | |- respects ?R (try_finally _ _) => apply (respects_try_finally R)
      | |- respects ?R (modify _) => apply (respects_modify R); keeps_leaf
      | |- respects _ (match ?x with _ => _ end) => destruct x
      | |- respects _ (let x := _ in _) => cbv zeta
      end
    | progress unfold signupForm_submit, loginForm_submit, console, login_try,
        login_catch, signup_try, signup_catch, showError, showSuccess,
        console_error, console_warn, console_log, safeShowMessage,
        setButtonLoading, container_remove_active, getButton, value_of,
        localStorage_setItem, emit ].

(** Every entry point of the script keeps the timer table well formed,
    and so does a timer that fires ([fire_keeps]); the page starts well
    formed ([loaded_well_formed]). *)
Lemma signupForm_submit_keeps net : respects (keeps well_formed) (signupForm_submit net).
Proof. keeps_tac. Qed.

Lemma loginForm_submit_keeps net : respects (keeps well_formed) (loginForm_submit net).
Proof. keeps_tac. Qed.

Lemma console_keeps ch args : respects (keeps well_formed) (console ch args).
Proof. destruct ch; keeps_tac. Qed.

Lemma step_keeps (w w' : world) : step w w' → well_formed w → well_formed w'.
Proof.
  destruct 1 as [net|net|ch args|t Ht|d|s a].
  - apply signupForm_submit_keeps.
  - apply loginForm_submit_keeps.
  - apply console_keeps.
  - apply fire_keeps.
  - by apply well_formed_shrink.
  - by apply well_formed_shrink.
Qed.

(** The timer table is well formed in every state the loaded page can
    reach. *)
Lemma reachable_well_formed (ru re rp lu lp : jsstring) (w : world) :
  reachable (loaded ru re rp lu lp) w → well_formed w.
Proof.
  unfold reachable. intros H.
  assert (∀ w0, rtc step w0 w → well_formed w0 → well_formed w) as Hall.
  { clear. induction 1 as [|w0 w1 w2 Hstep _ IH]; [done|].
    intros Hw0. apply IH. by eapply step_keeps. }
  eapply Hall; [exact H | apply loaded_well_formed].
Qed.

(** So at most one hide timer is ever pending, and the timer table meets
    what the properties of [safeFetch] ask of it. *)
Lemma reachable_one_hide_timer (ru re rp lu lp : jsstring) (w : world) :
  reachable (loaded ru re rp lu lp) w → (length (hide_timers w) ≤ 1)%nat.
Proof. intros H. by destruct (reachable_well_formed _ _ _ _ _ _ H) as (_ & _ & _ & ?). Qed.

Lemma reachable_fresh_controllers (ru re rp lu lp : jsstring) (w : world) :
  reachable (loaded ru re rp lu lp) w → fresh_controllers w.
Proof. intros H. by destruct (reachable_well_formed _ _ _ _ _ _ H) as (? & _). Qed.

(** ** The network wrapper: properties claimed *)

(** C4. A response whose body is not JSON makes the wrapper fail with
    "Invalid server response", whatever its status, 2xx included. *)
Theorem safeFetch_invalid_server_response (url : jsstring) (o : options)
    (timeout : option N) (ms st : N) (w : world) :
  fresh_controllers w →
  ms < default 10000 timeout →
  fst (safeFetch url o timeout (arrives ms st None) w)
  = Throws (Error (utf16 "Invalid server response")).
Proof.
  intros Hw Hms. rewrite safeFetch_spec by done.
  by rewrite race_arrives_in_time.
Qed.

Lemma safeFetch_invalid_server_response_witness :
  fst (safeFetch (API_URL ++ utf16 "/login") (POST (login_body (utf16 "ann") (utf16 "pw")))
         None (arrives 120 200 None) (loaded [] [] [] (utf16 "ann") (utf16 "pw")))
  = Throws (Error (utf16 "Invalid server response")).
Proof.
  apply safeFetch_invalid_server_response;
    [apply loaded_fresh_controllers | reflexivity].
Defined.

(** The error of a response that is not ok, for a body other than null. *)
Lemma safeFetch_not_ok (url : jsstring) (o : options)
    (timeout : option N) (ms st : N) (data : json) (w : world) :
  fresh_controllers w →
  ms < default 10000 timeout →
  ¬ (200 ≤ st ≤ 299) →
  data ≠ JNull →
  fst (safeFetch url o timeout (arrives ms st (Some data)) w)
  = Throws (error_of (error_value data st)).
Proof.
  intros Hw Hms Hst Hdata.
  rewrite safeFetch_spec by done. rewrite race_arrives_in_time by done.
  unfold settle. simpl. rewrite not_ok by done. by destruct data.
Qed.

(** C3, as amended. A response that is not ok and whose body is JSON other
    than null: the wrapper takes the body's member "message" when it is
    truthy, else its member "error" when that is truthy, else the text
    "HTTP " with the status, and fails with an Error of the text of what
    it took; so a body {"message": X} with X not empty fails with X.  A
    member taken that has no text, an object with a member "toString" of
    its own, makes the wrapper fail with the TypeError of the
    conversion. *)
Theorem safeFetch_http_error (url : jsstring) (o : options)
    (timeout : option N) (ms st : N) (data : json) (w : world) :
  fresh_controllers w →
  ms < default 10000 timeout →
  ¬ (200 ≤ st ≤ 299) →
  data ≠ JNull →
  let run := fst (safeFetch url o timeout (arrives ms st (Some data)) w) in
  let thrown v := match toString v with
                  | inr text => Throws (Error text)
                  | inl e => Throws e
                  end in
  (∀ members m, data = JObj members →
     member (utf16 "message") members = Some m → truthy m = true →
     run = thrown m)
  ∧ (∀ members e, data = JObj members →
       is_truthy (member (utf16 "message") members) = false →
       member (utf16 "error") members = Some e → truthy e = true →
       run = thrown e)
  ∧ ((∀ members, data = JObj members →
        is_truthy (member (utf16 "message") members) = false
        ∧ is_truthy (member (utf16 "error") members) = false) →
     run = Throws (Error (utf16 "HTTP " ++ decimal st)))
  ∧ (∀ X, X ≠ [] → data = JObj [(utf16 "message", JStr X)] → run = Throws (Error X))
  ∧ (∀ members inner, data = JObj members →
       member (utf16 "message") members = Some (JObj inner) →
       has_own (utf16 "toString") inner = true →
       run = Throws (TypeError (utf16 "Cannot convert object to primitive value"))).
Proof.
  intros Hw Hms Hst Hdata run thrown.
  assert (run = thrown (error_value data st)) as E.
  { subst run thrown. rewrite safeFetch_not_ok by done. unfold error_of.
    by destruct (toString _). }
  assert (∀ members m, data = JObj members →
            member (utf16 "message") members = Some m → truthy m = true →
            run = thrown m) as Hmessage.
  { intros members m -> Hm Ht. rewrite E. unfold error_value, or_else.
    by rewrite Hm, Ht. }
  split; [exact Hmessage|]. split; [|split; [|split]].
  - intros members e -> Hm He Ht. rewrite E. unfold error_value, or_else.
    rewrite He, Ht. destruct (member (utf16 "message") members) as [m|]; [|done].
    simpl in Hm. by rewrite Hm.
  - intros Hnone. rewrite E. unfold error_value, or_else.
    destruct data as [| | | | |members]; try done.
    destruct (Hnone members eq_refl) as [Hm He].
    destruct (member (utf16 "message") members) as [m|],
             (member (utf16 "error") members) as [e|];
      simpl in Hm, He; by rewrite ?Hm, ?He.
  - intros X HX ->. rewrite (Hmessage _ (JStr X) eq_refl); [done| |by destruct X].
    unfold member. by rewrite bool_decide_true.
  - intros members inner -> Hm Hown. rewrite (Hmessage _ _ eq_refl Hm eq_refl).
    subst thrown. simpl. by rewrite Hown.
Qed.

Lemma safeFetch_http_error_witness :
  let w := loaded [] [] [] (utf16 "ann") (utf16 "pw") in
  let url := API_URL ++ utf16 "/login" in
  let o := POST (login_body (utf16 "ann") (utf16 "pw")) in
  fst (safeFetch url o None
         (arrives 120 401 (Some (JObj [(utf16 "message", JStr (utf16 "Bad credentials"))]))) w)
  = Throws (Error (utf16 "Bad credentials"))
  ∧ fst (safeFetch url o None
           (arrives 120 422
              (Some (JObj [(utf16 "message", JObj [(utf16 "toString", JNull)])]))) w)
    = Throws (TypeError (utf16 "Cannot convert object to primitive value")).
Proof.
  intros w url o. split.
  - refine (proj1 (proj2 (proj2 (proj2 (safeFetch_http_error _ _ _ _ _ _ _ _ _ _ _))))
              (utf16 "Bad credentials") _ _).
    + apply loaded_fresh_controllers.
    + reflexivity.
    + vm_compute. intros [_ H]. by apply H.
    + discriminate.
    + by vm_compute.
    + reflexivity.
  - refine (proj2 (proj2 (proj2 (proj2 (safeFetch_http_error _ _ _ _ _ _ _ _ _ _ _))))
              _ [(utf16 "toString", JNull)] eq_refl _ _).
    + apply loaded_fresh_controllers.
    + reflexivity.
    + vm_compute. intros [_ H]. by apply H.
    + discriminate.
    + by vm_compute.
    + by vm_compute.
Defined.

(** C3, as stated, fails for the empty message: the wrapper falls back to
    the status text. *)
Lemma safeFetch_empty_message :
  fst (safeFetch (API_URL ++ utf16 "/login") (POST (login_body (utf16 "ann") (utf16 "pw")))
         None (arrives 120 400 (Some (JObj [(utf16 "message", JStr (utf16 ""))])))
         (loaded [] [] [] (utf16 "ann") (utf16 "pw")))
  = Throws (Error (utf16 "HTTP 400"))
  ∧ Error (utf16 "HTTP 400") ≠ Error (utf16 "").
Proof. split; [by vm_compute | vm_compute; discriminate]. Qed.

(** A body that is the JSON text null: reading "message" throws. *)
Lemma safeFetch_null_body :
  fst (safeFetch (API_URL ++ utf16 "/login") (POST (login_body (utf16 "ann") (utf16 "pw")))
         None (arrives 120 500 (Some JNull))
         (loaded [] [] [] (utf16 "ann") (utf16 "pw")))
  = Throws (TypeError (utf16 "Cannot read properties of null (reading 'message')")).
Proof. by vm_compute. Qed.

(** C5. Without a timeout argument the wrapper waits 10000 ms.  When the
    fetch has not settled before the timeout, the abort timer fires: the
    request is aborted and the wrapper fails with the timed-out message.
    When the response arrives first, the abort timer is cleared and no
    abort happens. *)
Theorem safeFetch_timeout (url : jsstring) (o : options) (timeout : option N)
    (net : network) (w : world) :
  fresh_controllers w →
  let r := request_of url o w in
  let run := safeFetch url o timeout net w in
  safeFetch url o None net w = safeFetch url o (Some 10000) net w
  ∧ (in_time net (default 10000 timeout) = false →
       fst run = Throws (Error (utf16 "⏳ Request timed out. Please try again."))
       ∧ trace (snd run) = trace w ++ [Fetch r; Aborted (req_signal r)]
       ∧ Forall (fun t => timer_id t ≠ next_timer w) (timers (snd run)))
  ∧ (∀ ms res, net = SettlesAfter ms (Responds res) → ms < default 10000 timeout →
       trace (snd run) = trace w ++ [Fetch r]
       ∧ Forall (fun t => timer_id t ≠ next_timer w) (timers (snd run))
       ∧ Forall (fun t => action t ≠ AbortRequest (req_signal r)) (timers (snd run))).
Proof.
  intros Hw r run. split; [reflexivity|]. subst run.
  rewrite safeFetch_spec by done. fold r. split.
  - intros Hlate.
    assert (race net (abort_timer_of timeout w) = None) as ->.
    { destruct net as [ms s|]; [|done]. simpl in *. by rewrite Hlate. }
    simpl. split; [done|]. split; [by rewrite <- app_assoc|].
    apply Forall_forall. intros t Ht. apply list_elem_of_filter in Ht. tauto.
  - intros ms res -> Hms. simpl. rewrite (proj2 (N.ltb_lt _ _) Hms). simpl.
    split; [done|]. split.
    + apply Forall_forall. intros t Ht. apply list_elem_of_filter in Ht. tauto.
    + apply Forall_forall. intros t Ht. apply list_elem_of_filter in Ht.
      destruct Ht as [Hid Ht]. apply elem_of_app in Ht as [Ht|Ht].
      * intros E. pose proof (proj1 (Forall_forall _ _) Hw t Ht) as Hc.
        simpl in Hc. rewrite E in Hc. simpl in Hc. lia.
      * apply list_elem_of_singleton in Ht. subst t. done.
Qed.

Lemma safeFetch_timeout_witness :
  let w := loaded [] [] [] (utf16 "ann") (utf16 "pw") in
  let url := API_URL ++ utf16 "/login" in
  let o := POST (login_body (utf16 "ann") (utf16 "pw")) in
  fresh_controllers w
  ∧ fst (safeFetch url o None (arrives 10000 200 (Some (JObj []))) w)
    = Throws (Error (utf16 "⏳ Request timed out. Please try again."))
  ∧ trace (snd (safeFetch url o None (arrives 9999 200 (Some (JObj []))) w))
    = [Fetch (request_of url o w)].
Proof.
  intros w url o. split; [apply loaded_fresh_controllers|]. split.
  - apply (safeFetch_timeout url o None (arrives 10000 200 (Some (JObj []))) w);
      [apply loaded_fresh_controllers | reflexivity].
  - eapply (safeFetch_timeout url o None (arrives 9999 200 (Some (JObj []))) w);
      [apply loaded_fresh_controllers | reflexivity | reflexivity].
Defined.

(** ** Message display and console mirror: properties claimed *)



(** C9, as amended. A wrapped console function first joins its arguments
    into one text.  When they join, it returns after it called the
    original with the same arguments, once, after the mirroring: while a
    mirrored call is active the flag is set and the call only reaches the
    original; otherwise the text is shown once by [showMessage], which
    runs with the flag set, and the flag is cleared again.  When an
    argument has no text the call throws what the conversion throws and
    nothing else happens. *)
Theorem console_mirror (ch : channel) (args : list value) (w : world) :
  let run := console ch args w in
  match args_join (utf16 " ") args with
  | inr text =>
    fst run = Returns tt
    ∧ trace (snd run) = trace w ++ [Console ch args]
    ∧ inShowMessage (snd run) = inShowMessage w
    ∧ snd run
      = with_trace (trace w ++ [Console ch args])
          (if inShowMessage w then w
           else with_inShowMessage false
                  (snd (showMessage (mirror_mark ch ++ text)
                          (Some (mirror_kind ch)) (with_inShowMessage true w))))
  | inl e => run = (Throws e, w)
  end.
Proof.
  assert (∀ msg ty,
    safeShowMessage msg ty w
    = (Returns tt,
       if inShowMessage w then w
       else with_inShowMessage false
              (snd (showMessage msg (Some ty) (with_inShowMessage true w))))) as Hsafe.
  { intros msg ty. unfold safeShowMessage, try_finally, bind, gets, modify. simpl.
    destruct (inShowMessage w); [done|]. by rewrite showMessage_run. }
  assert (∀ msg ty, trace (if inShowMessage w then w
         else with_inShowMessage false
                (snd (showMessage msg (Some ty) (with_inShowMessage true w))))
         = trace w) as Htrace.
  { intros msg ty. destruct (inShowMessage w); [done|]. simpl.
    by rewrite showMessage_trace. }
  intros run. subst run.
  destruct (args_join (utf16 " ") args) as [e|text] eqn:Hjoin.
  { destruct ch; unfold console, console_log, console_warn, console_error;
      rewrite Hjoin; reflexivity. }
  destruct ch; unfold console, console_log, console_warn, console_error, emit, modify;
    rewrite Hjoin; (erewrite bind_returns by reflexivity);
    (erewrite bind_returns by apply Hsafe); cbn [fst snd mirror_mark mirror_kind];
    rewrite Htrace; (split; [done|]); (split; [done|]); (split; [|done]);
    destruct (inShowMessage w) eqn:E; simpl; done.
Qed.

(** C9, as stated, fails for an argument that has no text: the call
    throws before the original function is reached, and nothing is
    logged. *)
Lemma console_mirror_no_text :
  let w := loaded [] [] [] [] [] in
  let run := console Log [VStr (utf16 "body:"); VJson (JObj [(utf16 "toString", JNull)])] w in
  fst run = Throws (TypeError (utf16 "Cannot convert object to primitive value"))
  ∧ trace (snd run) = []
  ∧ ¬ (∃ args, Console Log args ∈ trace (snd run)).
Proof.
  split; [by vm_compute|]. split; [by vm_compute|].
  intros [args H]. vm_compute in H. by apply elem_of_nil in H.
Qed.

(** ** Running the handlers *)

Lemma value_of_some (field : document → option jsstring) (w : world) (s : jsstring) :
  field (doc w) = Some s → value_of field w = (Returns s, w).
Proof. intros H. unfold value_of, bind, gets. simpl. by rewrite H. Qed.

Lemma setButtonLoading_run b l t w :
  setButtonLoading b l t w = (Returns tt, snd (setButtonLoading b l t w)).
Proof. unfold setButtonLoading. by repeat case_match. Qed.

Lemma setButtonLoading_storage b l t :
  respects (same localStorage) (setButtonLoading b l t).
Proof. respects_tac. Qed.

Lemma setButtonLoading_timers b l t :
  respects (same timers) (setButtonLoading b l t).
Proof. respects_tac. Qed.

Lemma setButtonLoading_trace b l t :
  respects (same trace) (setButtonLoading b l t).
Proof. respects_tac. Qed.

Lemma entered_trace b w : trace (entered b w) = trace w ++ [PreventDefault].
Proof. unfold entered. by rewrite setButtonLoading_trace. Qed.

Lemma entered_controllers b w : controllers (entered b w) = controllers w.
Proof. unfold entered, setButtonLoading. by repeat case_match. Qed.

Lemma entered_button (b : button_id) (w : world) :
  (fun _ => b) <$> button_of b (entered b w) = button_ref b w.
Proof.
  unfold entered, button_ref, setButtonLoading, button_of.
  destruct (get_button b (doc w)) eqn:E; simpl.
  - by destruct b.
  - unfold ret. simpl. by rewrite E.
Qed.

Lemma entered_fresh_controllers b w :
  fresh_controllers w → fresh_controllers (entered b w).
Proof.
  apply fresh_controllers_ext; unfold entered, setButtonLoading;
    by repeat case_match.
Qed.

Lemma loginForm_submit_valid (net : network) (w : world) (u p : jsstring) :
  loginUser (doc w) = Some u → loginPass (doc w) = Some p →
  trim u ≠ [] → p ≠ [] →
  loginForm_submit net w
  = try_finally (try_catch (login_try (trim u) p net) login_catch)
      (setButtonLoading (button_ref LoginBtn w) (Some false) (Some (utf16 "Sign In")))
      (entered LoginBtn w).
Proof.
  intros Hu Hp Hu' Hp'. unfold loginForm_submit.
  erewrite bind_returns by reflexivity.
  erewrite bind_returns by reflexivity.
  erewrite bind_returns by (apply value_of_some; exact Hu).
  cbv zeta.
  erewrite bind_returns by (apply value_of_some; exact Hp).
  rewrite !nonempty_true by done. simpl.
  erewrite bind_returns by apply setButtonLoading_run.
  reflexivity.
Qed.

Lemma signupForm_submit_valid (net : network) (w : world) (u e p : jsstring) :
  registerUser (doc w) = Some u → registerEmail (doc w) = Some e →
  registerPass (doc w) = Some p →
  trim u ≠ [] → trim e ≠ [] → (6 ≤ length p)%nat →
  signupForm_submit net w
  = try_finally (try_catch (signup_try (trim u) (trim e) p net) signup_catch)
      (setButtonLoading (button_ref SignupBtn w) (Some false) (Some (utf16 "Sign Up")))
      (entered SignupBtn w).
Proof.
  intros Hu He Hp Hu' He' Hp'. unfold signupForm_submit.
  erewrite bind_returns by reflexivity.
  erewrite bind_returns by reflexivity.
  erewrite bind_returns by (apply value_of_some; exact Hu).
  cbv zeta.
  erewrite bind_returns by (apply value_of_some; exact He).
  erewrite bind_returns by (apply value_of_some; exact Hp).
  rewrite !nonempty_true by (done || (intros ->; simpl in Hp'; lia)). simpl.
  rewrite (proj2 (Nat.ltb_ge _ _) Hp').
  erewrite bind_returns by apply setButtonLoading_run.
  reflexivity.
Qed.

(** The validation message of a signup that is rejected. *)
Lemma signupForm_submit_invalid (net : network) (w : world) (u e p : jsstring) :
  registerUser (doc w) = Some u → registerEmail (doc w) = Some e →
  registerPass (doc w) = Some p →
  trim u = [] ∨ trim e = [] ∨ p = [] ∨ (length p < 6)%nat →
  signupForm_submit net w
  = (emit PreventDefault;;
     showError (if decide (trim u = [] ∨ trim e = [] ∨ p = [])
                then utf16 "⚠️ All fields are required."
                else utf16 "⚠️ Password must be at least 6 characters.")) w.
Proof.
  intros Hu He Hp Hbad. unfold signupForm_submit.
  erewrite !bind_returns by reflexivity.
  erewrite bind_returns by (apply value_of_some; exact Hu).
  cbv zeta.
  erewrite bind_returns by (apply value_of_some; exact He).
  erewrite bind_returns by (apply value_of_some; exact Hp).
  destruct (decide (trim u = [] ∨ trim e = [] ∨ p = [])) as [Hempty|Hfull].
  - assert (negb (nonempty (trim u)) || negb (nonempty (trim e))
            || negb (nonempty p) = true) as ->; [|done].
    destruct Hempty as [->| [->| ->]]; simpl; [done| |];
      by rewrite ?orb_true_r.
  - rewrite !nonempty_true by tauto. simpl.
    assert ((length p <? 6)%nat = true) as ->; [|done].
    apply Nat.ltb_lt. tauto.
Qed.

Lemma login_catch_run (err : js_error) (w : world) :
  login_catch err w = (Returns tt, snd (login_catch err w)).
Proof.
  unfold login_catch, showError.
  erewrite bind_returns by apply console_error_run. apply showMessage_run.
Qed.

Lemma login_catch_shows (err : js_error) (w : world) :
  errorMessage (doc (snd (login_catch err w)))
  = (fun _ => showing (message_or err (utf16 "❌ Login failed. Check credentials."))
                (utf16 "error")) <$> errorMessage (doc w).
Proof.
  unfold login_catch, showError.
  erewrite bind_returns by apply console_error_run.
  rewrite showMessage_shows. simpl.
  pose proof (console_error_element (utf16 "Login Error:") err w) as H.
  destruct (errorMessage (doc (snd (console_error _ w)))) as [x|] eqn:E1,
           (errorMessage (doc w)) as [y|] eqn:E2; simpl; try done.
  - destruct H as [H _]. by destruct H.
  - destruct H as [_ H]. by destruct H.
Qed.

Lemma login_catch_storage err : respects (same localStorage) (login_catch err).
Proof. unfold login_catch. respects_tac. Qed.

Lemma signup_catch_run (err : js_error) (w : world) :
  signup_catch err w = (Returns tt, snd (signup_catch err w)).
Proof.
  unfold signup_catch, showError.
  erewrite bind_returns by apply console_error_run. apply showMessage_run.
Qed.

Ltac respects_script :=
  repeat first
    [ apply safeFetch_button | apply safeFetch_storage | apply safeFetch_extends
    | progress unfold login_try, login_catch, signup_try, signup_catch
    | progress respects_tac ].

Lemma login_block_button b u p net :
  respects (same (button_of b)) (try_catch (login_try u p net) login_catch).
Proof. respects_script. Qed.

Lemma signup_block_button b u e p net :
  respects (same (button_of b)) (try_catch (signup_try u e p net) signup_catch).
Proof. respects_script. Qed.

(** The [finally] block puts the button, when the page has one, back to
    its idle state, whatever the [try] and [catch] blocks did. *)
Lemma finally_restores (b : button_id) (label : jsstring) (m : M unit) (w0 w : world) :
  fst (m w) = Returns tt →
  button_of b (snd (m w)) = button_of b w →
  (fun _ => b) <$> button_of b w = button_ref b w0 →
  let run := try_finally m (setButtonLoading (button_ref b w0) (Some false) (Some label)) w in
  fst run = Returns tt
  ∧ button_of b (snd run) = (fun _ => idle label) <$> button_of b w.
Proof.
  intros Hm Hb Href run. subst run. unfold try_finally.
  destruct (m w) as [out w1]. simpl in *. subst out.
  rewrite setButtonLoading_run. simpl. split; [done|].
  rewrite <- Href. rewrite <- Hb.
  unfold setButtonLoading, button_of.
  destruct (get_button b (doc w1)) eqn:E; simpl; [|done].
  by destruct b.
Qed.

(** ** Signup: properties claimed *)

(** C6. A signup whose trimmed username or email, or whose password, is
    empty, or whose password is shorter than 6, does nothing but
    intercept the submit and show the message for that case: no request
    leaves, the button is never touched, the handler returns. *)
Theorem signup_rejected_locally (net : network) (w : world) (u e p : jsstring) :
  registerUser (doc w) = Some u → registerEmail (doc w) = Some e →
  registerPass (doc w) = Some p →
  trim u = [] ∨ trim e = [] ∨ p = [] ∨ (length p < 6)%nat →
  let msg := if decide (trim u = [] ∨ trim e = [] ∨ p = [])
             then utf16 "⚠️ All fields are required."
             else utf16 "⚠️ Password must be at least 6 characters." in
  let run := signupForm_submit net w in
  run = (emit PreventDefault;; showError msg) w
  ∧ fst run = Returns tt
  ∧ trace (snd run) = trace w ++ [PreventDefault]
  ∧ button_of SignupBtn (snd run) = button_of SignupBtn w
  ∧ errorMessage (doc (snd run))
    = (fun _ => showing msg (utf16 "error")) <$> errorMessage (doc w).
Proof.
  intros Hu He Hp Hbad msg run.
  assert (run = (emit PreventDefault;; showError msg) w) as Hrun.
  { by apply signupForm_submit_invalid. }
  split; [exact Hrun|]. rewrite Hrun. unfold showError.
  erewrite bind_returns by reflexivity. rewrite showMessage_run. cbn [fst snd].
  rewrite showMessage_trace, showMessage_button_of, showMessage_shows. done.
Qed.

Lemma signup_rejected_locally_witness :
  let w := loaded (utf16 "bob") (utf16 "bob@example.org") (utf16 "12345") [] [] in
  let run := signupForm_submit NeverSettles w in
  (length (utf16 "12345") < 6)%nat
  ∧ trace (snd run) = [PreventDefault]
  ∧ textContent <$> errorMessage (doc (snd run))
    = Some (utf16 "⚠️ Password must be at least 6 characters.").
Proof.
  intros w run. subst run. split; [vm_compute; lia|].
  pose proof (signup_rejected_locally NeverSettles w (utf16 "bob")
                (utf16 "bob@example.org") (utf16 "12345")) as H.
  destruct H as (_ & _ & Ht & _ & Hm).
  - reflexivity.
  - reflexivity.
  - reflexivity.
  - right. right. right. vm_compute. lia.
  - split; [exact Ht|]. rewrite Hm. by vm_compute.
Defined.

(** C10. The username and the email are trimmed before they are tested,
    the password is not: a password of six or more white-space
    characters passes validation and goes into the request body as it
    is, while a username or an email of white space only is rejected as
    empty. *)
Theorem signup_password_not_trimmed (net : network) (w : world) (u e p : jsstring) :
  registerUser (doc w) = Some u → registerEmail (doc w) = Some e →
  registerPass (doc w) = Some p →
  (Forall (fun c => is_space c = true) p → (6 ≤ length p)%nat →
   trim u ≠ [] → trim e ≠ [] →
   trim p = []
   ∧ ∃ rest,
       trace (snd (signupForm_submit net w))
       = trace w ++ PreventDefault
           :: Fetch {| req_url := API_URL ++ utf16 "/register";
                       req_method := Some (utf16 "POST");
                       req_body := Some (JSON_stringify
                                           (signup_body (trim u) (trim e) p));
                       req_headers := {[ utf16 "Content-Type" := utf16 "application/json" ]};
                       req_signal := controllers w |} :: rest)
  ∧ (Forall (fun c => is_space c = true) u ∨ Forall (fun c => is_space c = true) e →
     signupForm_submit net w
     = (emit PreventDefault;; showError (utf16 "⚠️ All fields are required.")) w).
Proof.
  intros Hu He Hp. split.
  - intros Hspace Hlen Hu' He'. split; [by apply trim_spaces|].
    rewrite (signupForm_submit_valid net w u e p) by done.
    set (r := Fetch _).
    assert (∃ rest, trace (snd (signup_try (trim u) (trim e) p net (entered SignupBtn w)))
                    = trace w ++ PreventDefault :: r :: rest) as [rest Hrest].
    { unfold signup_try.
      destruct (safeFetch_trace (API_URL ++ utf16 "/register")
                  (POST (signup_body (trim u) (trim e) p)) None net
                  (entered SignupBtn w)) as [rest0 Hrest0].
      pose proof (bind_after extends (safeFetch (API_URL ++ utf16 "/register")
                  (POST (signup_body (trim u) (trim e) p)) None net)
                  (fun _ => showSuccess (utf16 "✅ Registration successful! You can now log in.");;
                            container_remove_active) (entered SignupBtn w)) as Hk.
      destruct Hk as [rest1 Hrest1]; [intros ?; respects_tac|].
      exists (rest0 ++ rest1). rewrite Hrest1, Hrest0, entered_trace.
      unfold request_of, POST, merged_headers.
      cbn [opt_method opt_body opt_headers default].
      rewrite entered_controllers, (left_id_L ∅ (∪)).
      subst r. by rewrite <- !app_assoc. }
    pose proof (try_catch_after extends (signup_try (trim u) (trim e) p net)
                  signup_catch (entered SignupBtn w)) as [rest1 H1];
      [intros ?; unfold signup_catch; respects_tac|].
    pose proof (try_finally_after extends
                  (try_catch (signup_try (trim u) (trim e) p net) signup_catch)
                  (setButtonLoading (button_ref SignupBtn w) (Some false)
                     (Some (utf16 "Sign Up")))
                  (entered SignupBtn w)) as [rest2 H2]; [respects_tac|].
    exists (rest ++ rest1 ++ rest2). rewrite H2, H1, Hrest.
    by rewrite <- !app_assoc.
  - intros Hspace.
    assert (trim u = [] ∨ trim e = []) as Hempty.
    { destruct Hspace as [H|H]; [left|right]; by apply trim_spaces. }
    rewrite (signupForm_submit_invalid net w u e p) by tauto.
    rewrite decide_True by tauto. done.
Qed.

Lemma signup_password_not_trimmed_witness :
  let w := loaded (utf16 "bob") (utf16 "bob@example.org") (utf16 "      ") [] [] in
  trim (utf16 "      ") = []
  ∧ trace (snd (signupForm_submit (arrives 90 201 (Some (JObj []))) w)) !! 1%nat
    = Some (Fetch {| req_url := utf16 "https://check-be-production.up.railway.app/register";
                     req_method := Some (utf16 "POST");
                     req_body := Some (utf16 "{" ++ [34] ++ utf16 "username" ++ [34; 58; 34]
                                         ++ utf16 "bob" ++ [34; 44; 34] ++ utf16 "email"
                                         ++ [34; 58; 34] ++ utf16 "bob@example.org"
                                         ++ [34; 44; 34] ++ utf16 "password" ++ [34; 58; 34]
                                         ++ utf16 "      " ++ [34] ++ utf16 "}");
                     req_headers := {[ utf16 "Content-Type" := utf16 "application/json" ]};
                     req_signal := 0 |}).
Proof.
  intros w.
  destruct (proj1 (signup_password_not_trimmed (arrives 90 201 (Some (JObj []))) w
                     (utf16 "bob") (utf16 "bob@example.org") (utf16 "      ")
                     eq_refl eq_refl eq_refl))
    as [Htrim [rest Hrest]].
  - by vm_compute; repeat constructor.
  - vm_compute. lia.
  - by vm_compute.
  - by vm_compute.
  - split; [exact Htrim|]. rewrite Hrest. by vm_compute.
Defined.

(** The button is busy when the [try] block starts. *)
Lemma entered_busy (b : button_id) (w : world) :
  button_of b (entered b w) = (fun _ => busy) <$> button_of b w.
Proof.
  unfold entered, button_ref, setButtonLoading, button_of.
  destruct (get_button b (doc w)) eqn:E; simpl.
  - by destruct b.
  - unfold ret. simpl. by rewrite E.
Qed.

(** A [try] block that waits for ever leaves its handler waiting: neither
    the [catch] nor the [finally] block runs. *)
Lemma handler_waits (m : M unit) (h : js_error → M unit) (f : M unit) (w : world) :
  fst (m w) = Suspended →
  try_finally (try_catch m h) f w = (Suspended, snd (m w)).
Proof.
  intros Hm. unfold try_finally, try_catch.
  destruct (m w) as [out w1]. simpl in Hm. by subst out.
Qed.

(** The two [try] blocks wait exactly when [safeFetch] does. *)
Lemma signup_try_suspended (u e p : jsstring) (net : network) (w : world) :
  fresh_controllers w →
  fst (signup_try u e p net w) = Suspended ↔ body_stalls net 10000 = true.
Proof.
  intros Hw.
  rewrite <- (safeFetch_suspended (API_URL ++ utf16 "/register")
                (POST (signup_body u e p)) None net w Hw).
  unfold signup_try, showSuccess, bind.
  destruct (safeFetch _ _ None net w) as [[data|err|] w1]; simpl; [|done..].
  rewrite showMessage_run.
  split; [|done]. unfold container_remove_active, bind, gets. simpl.
  by destruct (container (doc (snd _))).
Qed.

Lemma setItem_settles (key val : jsstring) : total (localStorage_setItem key val).
Proof.
  intros w. unfold localStorage_setItem, bind, gets. simpl.
  by destruct (storage_accepts w (localStorage w) key val).
Qed.

Lemma login_try_suspended (u p : jsstring) (net : network) (w : world) :
  fresh_controllers w →
  fst (login_try u p net w) = Suspended ↔ body_stalls net 10000 = true.
Proof.
  intros Hw.
  rewrite <- (safeFetch_suspended (API_URL ++ utf16 "/login")
                (POST (login_body u p)) None net w Hw).
  unfold login_try.
  destruct (safeFetch _ _ None net w) as [[data|err|] w1] eqn:E.
  - erewrite bind_returns by exact E. simpl. split; [|done]. intros H. exfalso.
    revert H. generalize w1. 
    change (total (token ← lift (property (utf16 "token") data);
                   (if negb (is_truthy token) then throw (Error no_token) else ret tt);;
                   text ← lift (toString_opt token);
                   localStorage_setItem (utf16 "todo_token") text;;
                   localStorage_setItem (utf16 "todo_username") u;;
                   showSuccess (utf16 "✅ Login successful! Redirecting...");;
                   setTimeout (Navigate (utf16 "app.html")) 1200;;
                   ret tt)).
    repeat first [ apply setItem_settles | progress total_tac ].
  - by erewrite bind_throws by exact E.
  - unfold bind. by rewrite E.
Qed.

(** ** The cleanup step: property claimed *)

(** C7. Once a signup or login submission has passed validation, the
    handler completes for every behaviour of the network but one, and
    when it completes the submit button is enabled again and shows its
    default label, "Sign Up" or "Sign In", whether the request succeeded
    or failed.  The one behaviour under which it does not complete is a
    response that comes in time with a body that never ends: the handler
    stays in its [try] block and the button stays busy. *)
Theorem handlers_restore_button (net : network) (w : world) :
  fresh_controllers w →
  (∀ u e p,
     registerUser (doc w) = Some u → registerEmail (doc w) = Some e →
     registerPass (doc w) = Some p →
     trim u ≠ [] → trim e ≠ [] → (6 ≤ length p)%nat →
     let run := signupForm_submit net w in
     if body_stalls net 10000
     then fst run = Suspended
          ∧ button_of SignupBtn (snd run) = (fun _ => busy) <$> button_of SignupBtn w
     else fst run = Returns tt
          ∧ button_of SignupBtn (snd run)
            = (fun _ => idle (utf16 "Sign Up")) <$> button_of SignupBtn w)
  ∧ (∀ u p,
     loginUser (doc w) = Some u → loginPass (doc w) = Some p →
     trim u ≠ [] → p ≠ [] →
     let run := loginForm_submit net w in
     if body_stalls net 10000
     then fst run = Suspended
          ∧ button_of LoginBtn (snd run) = (fun _ => busy) <$> button_of LoginBtn w
     else fst run = Returns tt
          ∧ button_of LoginBtn (snd run)
            = (fun _ => idle (utf16 "Sign In")) <$> button_of LoginBtn w).
Proof.
  intros Hw. split.
  - intros u e p Hu He Hp Hu' He' Hp' run. subst run.
    rewrite (signupForm_submit_valid net w u e p) by done.
    pose proof (entered_fresh_controllers SignupBtn w Hw) as Hw1.
    pose proof (signup_try_suspended (trim u) (trim e) p net _ Hw1) as Hwait.
    destruct (body_stalls net 10000).
    + rewrite handler_waits by (by apply Hwait). split; [done|]. cbn [snd].
      unfold signup_try. rewrite (bind_after (same (button_of SignupBtn)));
        [|intros ?; respects_tac].
      by rewrite safeFetch_button, entered_busy.
    + destruct (finally_restores SignupBtn (utf16 "Sign Up")
                  (try_catch (signup_try (trim u) (trim e) p net) signup_catch)
                  w (entered SignupBtn w)) as [H1 H2].
      * apply try_catch_contained; [|intros err w1; by rewrite signup_catch_run].
        intros H. apply Hwait in H. done.
      * apply signup_block_button.
      * apply entered_button.
      * split; [exact H1|]. rewrite H2, entered_busy.
        by destruct (button_of SignupBtn w).
  - intros u p Hu Hp Hu' Hp' run. subst run.
    rewrite (loginForm_submit_valid net w u p) by done.
    pose proof (entered_fresh_controllers LoginBtn w Hw) as Hw1.
    pose proof (login_try_suspended (trim u) p net _ Hw1) as Hwait.
    destruct (body_stalls net 10000).
    + rewrite handler_waits by (by apply Hwait). split; [done|]. cbn [snd].
      unfold login_try. rewrite (bind_after (same (button_of LoginBtn)));
        [|intros ?; respects_tac].
      by rewrite safeFetch_button, entered_busy.
    + destruct (finally_restores LoginBtn (utf16 "Sign In")
                  (try_catch (login_try (trim u) p net) login_catch)
                  w (entered LoginBtn w)) as [H1 H2].
      * apply try_catch_contained; [|intros err w1; by rewrite login_catch_run].
        intros H. apply Hwait in H. done.
      * apply login_block_button.
      * apply entered_button.
      * split; [exact H1|]. rewrite H2, entered_busy.
        by destruct (button_of LoginBtn w).
Qed.

Lemma handlers_restore_button_witness :
  let w := loaded (utf16 "bob") (utf16 "bob@example.org") (utf16 "secret1")
             (utf16 "ann") (utf16 "pw") in
  button_of SignupBtn (snd (signupForm_submit NeverSettles w))
  = Some (idle (utf16 "Sign Up"))
  ∧ button_of LoginBtn (snd (loginForm_submit (arrives 80 500 None) w))
    = Some (idle (utf16 "Sign In"))
  ∧ fst (loginForm_submit (stalls 80 200) w) = Suspended
  ∧ button_of LoginBtn (snd (loginForm_submit (stalls 80 200) w)) = Some busy.
Proof.
  intros w. split; [|split].
  - refine (proj2 (proj1 (handlers_restore_button NeverSettles w
                            (loaded_fresh_controllers _ _ _ _ _))
                     (utf16 "bob") (utf16 "bob@example.org") (utf16 "secret1")
                     _ _ _ _ _ _));
      first [reflexivity | by vm_compute | vm_compute; lia].
  - refine (proj2 (proj2 (handlers_restore_button (arrives 80 500 None) w
                            (loaded_fresh_controllers _ _ _ _ _))
                     (utf16 "ann") (utf16 "pw") _ _ _ _));
      first [reflexivity | by vm_compute].
  - refine (proj2 (handlers_restore_button (stalls 80 200) w
                     (loaded_fresh_controllers _ _ _ _ _))
              (utf16 "ann") (utf16 "pw") _ _ _ _);
      first [reflexivity | by vm_compute].
Defined.

(** ** Login: properties claimed *)

Lemma setItem_run (key val : jsstring) (w : world) :
  storage_accepts w (localStorage w) key val = true →
  localStorage_setItem key val w
  = (Returns tt, with_localStorage (<[key := val]> (localStorage w)) w).
Proof. intros H. unfold localStorage_setItem, bind, gets. simpl. by rewrite H. Qed.

Lemma setItem_refused (key val : jsstring) (w : world) :
  storage_accepts w (localStorage w) key val = false →
  localStorage_setItem key val w = (Throws (quota_exceeded key), w).
Proof. intros H. unfold localStorage_setItem, bind, gets. simpl. by rewrite H. Qed.

Lemma entered_storage_accepts b w : storage_accepts (entered b w) = storage_accepts w.
Proof. unfold entered, setButtonLoading. by repeat case_match. Qed.

Lemma entered_localStorage b w : localStorage (entered b w) = localStorage w.
Proof. unfold entered, setButtonLoading. by repeat case_match. Qed.

(** The pending timer that carries out the navigation of a login. *)
Lemma login_try_success (ms st : N) (data : json) (username p tok : jsstring)
    (w : world) :
  fresh_controllers w → ms < 10000 → 200 ≤ st ≤ 299 →
  property (utf16 "token") data = inr (Some (JStr tok)) → tok ≠ [] →
  storage_accepts w (localStorage w) (utf16 "todo_token") tok = true →
  storage_accepts w (<[utf16 "todo_token" := tok]> (localStorage w))
    (utf16 "todo_username") username = true →
  ∃ w1, login_try username p (arrives ms st (Some data)) w = (Returns tt, w1)
    ∧ localStorage w1
      = <[utf16 "todo_username" := username]>
          (<[utf16 "todo_token" := tok]> (localStorage w))
    ∧ errorMessage (doc w1)
      = (fun _ => showing (utf16 "✅ Login successful! Redirecting...") (utf16 "success"))
          <$> errorMessage (doc w)
    ∧ ∃ id, {| timer_id := id; delay := 1200; action := Navigate (utf16 "app.html") |}
            ∈ timers w1.
Proof.
  intros Hw Hms Hst Htok Htok' Hroom1 Hroom2. unfold login_try.
  erewrite bind_returns; last first.
  { rewrite safeFetch_arrived by done. unfold settle. simpl.
    rewrite is_ok by done. reflexivity. }
  rewrite Htok. erewrite bind_returns by reflexivity.
  simpl. rewrite nonempty_true by done. simpl.
  erewrite bind_returns by reflexivity.
  erewrite bind_returns by reflexivity.
  erewrite bind_returns by (apply setItem_run; exact Hroom1).
  erewrite bind_returns by (apply setItem_run; exact Hroom2).
  erewrite bind_returns by apply showMessage_run.
  erewrite bind_returns by reflexivity.
  eexists. split; [reflexivity|]. split; [|split].
  - simpl. by rewrite showMessage_storage.
  - simpl. by rewrite showMessage_shows.
  - eexists. simpl. apply elem_of_app. right. by apply list_elem_of_singleton.
Qed.

(** C1. A login with a username and a password that are not empty,
    answered in time by a 2xx response whose body has the token "abc"
    (any non-empty text), in a browser whose store takes the two
    entries.  When the username is not empty once trimmed, the value the
    handler tests, the handler returns with todo_token set to the token
    and todo_username to the trimmed username in localStorage, with the
    success message shown, and with a timer pending, due after 1200 ms,
    that sets the address of the page to app.html when it fires and
    leaves the store as it is.  A username of white space only never
    reaches the login endpoint: no request leaves and nothing is
    stored. *)
Theorem login_success (ms st : N) (data : json) (u p tok : jsstring) (w : world) :
  fresh_controllers w →
  loginUser (doc w) = Some u → loginPass (doc w) = Some p →
  u ≠ [] → p ≠ [] →
  ms < 10000 → 200 ≤ st ≤ 299 →
  property (utf16 "token") data = inr (Some (JStr tok)) → tok ≠ [] →
  storage_accepts w (localStorage w) (utf16 "todo_token") tok = true →
  storage_accepts w (<[utf16 "todo_token" := tok]> (localStorage w))
    (utf16 "todo_username") (trim u) = true →
  let run := loginForm_submit (arrives ms st (Some data)) w in
  (trim u ≠ [] →
     fst run = Returns tt
     ∧ localStorage (snd run) !! utf16 "todo_token" = Some tok
     ∧ localStorage (snd run) !! utf16 "todo_username" = Some (trim u)
     ∧ errorMessage (doc (snd run))
       = (fun _ => showing (utf16 "✅ Login successful! Redirecting...") (utf16 "success"))
           <$> errorMessage (doc w)
     ∧ ∃ t, t ∈ timers (snd run)
            ∧ delay t = 1200 ∧ action t = Navigate (utf16 "app.html")
            ∧ href (fire t (snd run)) = utf16 "app.html"
            ∧ localStorage (fire t (snd run)) = localStorage (snd run))
  ∧ (trim u = [] →
       trace (snd run) = trace w ++ [PreventDefault]
       ∧ localStorage (snd run) = localStorage w).
Proof.
  intros Hw Hu Hp Hu0 Hp' Hms Hst Htok Htok' Hroom1 Hroom2 run. subst run. split.
  - intros Hu'.
    rewrite (loginForm_submit_valid _ w u p) by done.
    destruct (login_try_success ms st data (trim u) p tok (entered LoginBtn w))
      as (w1 & Hrun & Hstore & Hshown & id & Hnav);
      [by apply entered_fresh_controllers|done..| | |].
    { by rewrite entered_storage_accepts, entered_localStorage. }
    { by rewrite entered_storage_accepts, entered_localStorage. }
    unfold try_finally, try_catch. rewrite Hrun, setButtonLoading_run. cbn [fst snd].
    rewrite setButtonLoading_storage, setButtonLoading_timers, Hstore.
    split; [done|]. split; [|split; [|split]].
    + rewrite lookup_insert_ne by (by vm_compute). apply lookup_insert_eq.
    + apply lookup_insert_eq.
    + transitivity (errorMessage (doc w1)).
      { unfold setButtonLoading. by repeat case_match. }
      rewrite Hshown. unfold entered, setButtonLoading. by repeat case_match.
    + exists {| timer_id := id; delay := 1200; action := Navigate (utf16 "app.html") |}.
      split; [exact Hnav|]. split; [done|]. split; [done|]. split; [done|].
      unfold fire, run_callback. simpl. by rewrite setButtonLoading_storage.
  - intros Hempty.
    assert (loginForm_submit (arrives ms st (Some data)) w
            = (emit PreventDefault;;
               showError (utf16 "⚠️ Username and password are required.")) w) as ->.
    { unfold loginForm_submit.
      erewrite !bind_returns by reflexivity.
      erewrite bind_returns by (apply value_of_some; exact Hu).
      cbv zeta.
      erewrite bind_returns by (apply value_of_some; exact Hp).
      by rewrite Hempty. }
    unfold showError. erewrite bind_returns by reflexivity.
    by rewrite showMessage_trace, showMessage_storage.
Qed.

Lemma login_success_witness :
  let w := loaded [] [] [] (utf16 "  ann ") (utf16 "pw") in
  let run := loginForm_submit
               (arrives 150 200 (Some (JObj [(utf16 "token", JStr (utf16 "abc"))]))) w in
  trim (utf16 "  ann ") = utf16 "ann"
  ∧ localStorage (snd run) !! utf16 "todo_token" = Some (utf16 "abc")
  ∧ localStorage (snd run) !! utf16 "todo_username" = Some (utf16 "ann")
  ∧ ∃ t, t ∈ timers (snd run) ∧ delay t = 1200
         ∧ href (fire t (snd run)) = utf16 "app.html".
Proof.
  intros w run. subst run. split; [by vm_compute|].
  pose proof (login_success 150 200 (JObj [(utf16 "token", JStr (utf16 "abc"))])
                (utf16 "  ann ") (utf16 "pw") (utf16 "abc") w) as H.
  destruct H as [H _].
  - apply loaded_fresh_controllers.
  - reflexivity.
  - reflexivity.
  - by vm_compute.
  - by vm_compute.
  - reflexivity.
  - by vm_compute.
  - by vm_compute.
  - by vm_compute.
  - reflexivity.
  - reflexivity.
  - destruct H as (_ & H1 & H2 & _ & t & Ht & Hd & _ & Hh & _); [by vm_compute|].
    split; [exact H1|]. split; [etrans; [exact H2|]; by vm_compute|].
    exists t. by repeat split.
Defined.

(** Away from the null body, a response without a truthy token is
    reported as the missing token and nothing is stored. *)
Lemma login_missing_token (ms st : N) (data : json) (u p : jsstring) (w : world) :
  fresh_controllers w →
  loginUser (doc w) = Some u → loginPass (doc w) = Some p →
  trim u ≠ [] → p ≠ [] →
  ms < 10000 → 200 ≤ st ≤ 299 →
  data ≠ JNull →
  (∀ t, property (utf16 "token") data = inr (Some t) → truthy t = false) →
  let run := loginForm_submit (arrives ms st (Some data)) w in
  fst run = Returns tt
  ∧ localStorage (snd run) = localStorage w
  ∧ errorMessage (doc (snd run))
    = (fun _ => showing (utf16 "❌ Login failed: No token received.") (utf16 "error"))
        <$> errorMessage (doc w)
  ∧ Console ErrorChannel
      [VStr (utf16 "Login Error:");
       VError (Error (utf16 "❌ Login failed: No token received."))] ∈ trace (snd run).
Proof.
  intros Hw Hu Hp Hu' Hp' Hms Hst Hnull Htok run. subst run.
  rewrite (loginForm_submit_valid _ w u p) by done.
  assert (∃ w1, login_try (trim u) p (arrives ms st (Some data)) (entered LoginBtn w)
                = (Throws (Error no_token), w1)
                ∧ localStorage w1 = localStorage w
                ∧ errorMessage (doc w1) = errorMessage (doc w)) as (w1 & Hrun & Hs & He).
  { unfold login_try. erewrite bind_returns; last first.
    { rewrite safeFetch_arrived by (done || by apply entered_fresh_controllers).
      unfold settle. simpl. rewrite is_ok by done. reflexivity. }
    destruct (property (utf16 "token") data) as [e|t] eqn:E.
    { by destruct data. }
    erewrite bind_returns by reflexivity.
    assert (is_truthy t = false) as ->.
    { destruct t as [t|]; [|done]. simpl. by apply Htok. }
    simpl. erewrite bind_throws by reflexivity.
    eexists. split; [reflexivity|].
    unfold entered, button_ref, setButtonLoading. by repeat case_match. }
  unfold try_finally, try_catch. rewrite Hrun, login_catch_run, setButtonLoading_run.
  simpl. rewrite setButtonLoading_storage, login_catch_storage, Hs.
  split; [done|]. split; [done|]. split.
  - transitivity (errorMessage (doc (snd (login_catch (Error no_token) w1)))).
    { unfold setButtonLoading. by repeat case_match. }
    rewrite login_catch_shows, He. 
    assert (message_or (Error no_token) (utf16 "❌ Login failed. Check credentials.")
            = utf16 "❌ Login failed: No token received.") as -> by (by vm_compute).
    done.
  - rewrite setButtonLoading_trace. unfold login_catch, showError.
    erewrite bind_returns by apply console_error_run.
    rewrite showMessage_trace, console_error_trace.
    apply elem_of_app. right. by apply list_elem_of_singleton.
Qed.

(** C2, the failing input. A 200 response whose body is the JSON text
    null: the handler reports the TypeError raised by reading the token
    of null, not the missing token; nothing is stored. *)
Theorem login_null_body :
  let w := loaded [] [] [] (utf16 "ann") (utf16 "pw") in
  let run := loginForm_submit (arrives 150 200 (Some JNull)) w in
  fst run = Returns tt
  ∧ textContent <$> errorMessage (doc (snd run))
    = Some (utf16 "Cannot read properties of null (reading 'token')")
  ∧ textContent <$> errorMessage (doc (snd run))
    ≠ Some (utf16 "❌ Login failed: No token received.")
  ∧ trace (snd run) !! 2%nat
    = Some (Console ErrorChannel
              [VStr (utf16 "Login Error:");
               VError (TypeError (utf16 "Cannot read properties of null (reading 'token')"))])
  ∧ localStorage (snd run) = ∅.
Proof. vm_compute. repeat split; done. Qed.

(** A token that has no text: [setItem] converts it before it writes, the
    conversion throws, and the handler reports that; nothing is stored. *)
Lemma login_token_without_text :
  let w := loaded [] [] [] (utf16 "ann") (utf16 "pw") in
  let run := loginForm_submit
               (arrives 150 200
                  (Some (JObj [(utf16 "token", JObj [(utf16 "toString", JNull)])]))) w in
  fst run = Returns tt
  ∧ textContent <$> errorMessage (doc (snd run))
    = Some (utf16 "Cannot convert object to primitive value")
  ∧ localStorage (snd run) = ∅.
Proof. vm_compute. repeat split; done. Qed.

(** * Further properties *)

(** ** The network wrapper *)

Lemma filter_fresh_ids (ts : list timer) (n : N) :
  Forall (fun t => timer_id t < n) ts →
  filter (fun t => timer_id t ≠ n) ts = ts.
Proof.
  induction 1 as [|t ts Ht _ IH]; [done|].
  rewrite filter_cons_True by lia. by rewrite IH.
Qed.

(** X1. A 2xx response with a JSON body that arrives before the timeout
    makes the wrapper return the parsed body, whatever it is; one request
    has left, and the timer table is as before the call: the abort timer
    is gone. *)
Theorem safeFetch_success (url : jsstring) (o : options) (timeout : option N)
    (ms st : N) (data : json) (w : world) :
  well_formed w →
  ms < default 10000 timeout →
  200 ≤ st ≤ 299 →
  let run := safeFetch url o timeout (arrives ms st (Some data)) w in
  fst run = Returns data
  ∧ trace (snd run) = trace w ++ [Fetch (request_of url o w)]
  ∧ timers (snd run) = timers w
  ∧ doc (snd run) = doc w
  ∧ localStorage (snd run) = localStorage w.
Proof.
  intros (Hc & [Hids _] & _) Hms Hst run. subst run.
  rewrite safeFetch_spec by done. rewrite race_arrives_in_time by done.
  unfold settle. simpl. rewrite is_ok by done.
  repeat split.
  rewrite filter_app, filter_fresh_ids by done.
  rewrite filter_cons_False by (simpl; tauto). by rewrite app_nil_r.
Qed.

Lemma safeFetch_success_witness :
  let w := loaded [] [] [] (utf16 "ann") (utf16 "pw") in
  fst (safeFetch (API_URL ++ utf16 "/login") (POST (login_body (utf16 "ann") (utf16 "pw")))
         None (arrives 35 200 (Some JNull)) w) = Returns JNull
  ∧ timers (snd (safeFetch (API_URL ++ utf16 "/login")
                   (POST (login_body (utf16 "ann") (utf16 "pw")))
                   None (arrives 35 200 (Some JNull)) w)) = [].
Proof.
  intros w.
  destruct (safeFetch_success (API_URL ++ utf16 "/login")
              (POST (login_body (utf16 "ann") (utf16 "pw"))) None 35 200 JNull w)
    as (H1 & _ & H3 & _).
  - apply loaded_well_formed.
  - reflexivity.
  - by vm_compute.
  - split; [exact H1 | exact H3].
Defined.

(** X2. The request that leaves carries the caller's url, method and
    body and the signal of a new controller.  Its headers are the
    caller's, each with the caller's value, plus "Content-Type:
    application/json" when the caller gave no header of that name. *)
Theorem safeFetch_request (url : jsstring) (o : options) (timeout : option N)
    (net : network) (w : world) :
  ∃ r rest,
    trace (snd (safeFetch url o timeout net w)) = trace w ++ Fetch r :: rest
    ∧ req_url r = url ∧ req_method r = opt_method o ∧ req_body r = opt_body o
    ∧ req_signal r = controllers w
    ∧ (∀ k, req_headers r !! k
            = match default ∅ (opt_headers o) !! k with
              | Some v => Some v
              | None => if bool_decide (k = utf16 "Content-Type")
                        then Some (utf16 "application/json") else None
              end).
Proof.
  destruct (safeFetch_trace url o timeout net w) as [rest Hrest].
  exists (request_of url o w), rest. split; [exact Hrest|].
  repeat split. intros k. unfold request_of, merged_headers. simpl.
  rewrite lookup_union.
  destruct (default ∅ (opt_headers o) !! k) as [v|] eqn:E; simpl.
  - by destruct ({[_ := _]} !! k).
  - case_bool_decide as Hk.
    + subst k. by rewrite lookup_singleton_eq.
    + by rewrite lookup_singleton_ne.
Qed.

(** X3. A fetch that rejects before the timeout: its error is thrown on
    as it is, unless its name is "AbortError", which is reported as a
    timeout.  Nothing was aborted, and the abort timer is still pending:
    only a response clears it. *)
Theorem safeFetch_rejection (url : jsstring) (o : options) (timeout : option N)
    (ms : N) (e : js_error) (w : world) :
  fresh_controllers w →
  ms < default 10000 timeout →
  let run := safeFetch url o timeout (SettlesAfter ms (Rejects e)) w in
  fst run = Throws (if bool_decide (err_name e = utf16 "AbortError")
                    then Error (utf16 "⏳ Request timed out. Please try again.")
                    else e)
  ∧ trace (snd run) = trace w ++ [Fetch (request_of url o w)]
  ∧ timers (snd run)
    = timers w ++ [{| timer_id := next_timer w; delay := default 10000 timeout;
                      action := AbortRequest (controllers w) |}].
Proof.
  intros Hw Hms run. subst run. rewrite safeFetch_spec by done.
  simpl. by rewrite (proj2 (N.ltb_lt _ _) Hms).
Qed.

Lemma safeFetch_rejection_witness :
  let e := TypeError (utf16 "Failed to fetch") in
  fst (safeFetch (API_URL ++ utf16 "/login") (POST (login_body (utf16 "ann") (utf16 "pw")))
         None (SettlesAfter 12 (Rejects e)) (loaded [] [] [] (utf16 "ann") (utf16 "pw")))
  = Throws e.
Proof.
  intros e.
  refine (proj1 (safeFetch_rejection _ _ None 12 e _ _ _));
    [apply loaded_fresh_controllers | reflexivity].
Defined.

(** X4. The wrapper is left waiting for ever by one behaviour of the
    network and by no other: a response that comes before the timeout
    with a body that never ends.  The abort timer was cleared when the
    response came, before the body is read, so nothing ends the wait: the
    timer table is as before the call and nothing was aborted.  Under
    every other behaviour, also a server that never answers, the call
    returns or throws. *)
Theorem safeFetch_waits_for_body (url : jsstring) (o : options) (timeout : option N)
    (net : network) (w : world) :
  well_formed w →
  let run := safeFetch url o timeout net w in
  if body_stalls net (default 10000 timeout)
  then fst run = Suspended
       ∧ trace (snd run) = trace w ++ [Fetch (request_of url o w)]
       ∧ timers (snd run) = timers w
  else (∃ data, fst run = Returns data) ∨ (∃ e, fst run = Throws e).
Proof.
  intros (Hc & [Hids _] & _) run. subst run.
  pose proof (safeFetch_suspended url o timeout net w Hc) as Hwait.
  destruct (body_stalls net (default 10000 timeout)) eqn:Hstalls.
  - split; [by apply Hwait|].
    rewrite safeFetch_spec by done.
    destruct net as [ms [res|e]|]; simpl in *; [|done..].
    destruct (ms <? default 10000 timeout); simpl in *; [|done].
    split; [done|].
    rewrite filter_app, filter_fresh_ids by done.
    rewrite filter_cons_False by (simpl; tauto). by rewrite app_nil_r.
  - destruct (fst (safeFetch url o timeout net w)) as [data|e|]; [eauto..|].
    destruct Hwait as [Hwait _]. by specialize (Hwait eq_refl).
Qed.

Lemma safeFetch_waits_for_body_witness :
  let w := loaded [] [] [] (utf16 "ann") (utf16 "pw") in
  let url := API_URL ++ utf16 "/login" in
  let o := POST (login_body (utf16 "ann") (utf16 "pw")) in
  (fst (safeFetch url o None (stalls 35 200) w) = Suspended
   ∧ timers (snd (safeFetch url o None (stalls 35 200) w)) = [])
  ∧ ((∃ data, fst (safeFetch url o None NeverSettles w) = Returns data)
     ∨ (∃ e, fst (safeFetch url o None NeverSettles w) = Throws e)).
Proof.
  intros w url o. split.
  - destruct (safeFetch_waits_for_body url o None (stalls 35 200) w
                (loaded_well_formed _ _ _ _ _)) as (H1 & _ & H3).
    split; [exact H1 | exact H3].
  - exact (safeFetch_waits_for_body url o None NeverSettles w
             (loaded_well_formed _ _ _ _ _)).
Defined.

(** ** What the handlers report and send *)

#[export] Instance quiet_preorder : PreOrder quiet.
Proof.
  split.
  - intros w. exists []. by rewrite app_nil_r.
  - intros w1 w2 w3 (r1 & H1 & F1) (r2 & H2 & F2). exists (r1 ++ r2).
    split; [by rewrite H2, H1, app_assoc | by apply Forall_app].
Qed.

Ltac quiet_leaf :=
  intros ?; unfold quiet; simpl;
  first [ by exists []; rewrite app_nil_r
        | eexists [_]; split; [reflexivity | by repeat constructor] ].

Ltac quiet_tac :=
  repeat first
    [ progress respects_tac
    | progress unfold login_try, login_catch, signup_try, signup_catch
    | match goal with
      | |- respects ?R (modify _) => apply (respects_modify R); quiet_leaf
      end ].

Lemma fetch_one_request (r : request) (net : network) (w : world) :
  ∃ rest, trace (snd (fetch r net w)) = trace w ++ Fetch r :: rest
          ∧ Forall (fun e => is_fetch e = false) rest.
Proof.
  unfold fetch, emit. erewrite bind_returns by reflexivity.
  erewrite bind_returns by reflexivity.
  destruct net as [ms [res|e]|], (abort_timer _ _) as [t|];
    try destruct (ms <? delay t);
    unfold bind, modify, throw, ret, fire, run_callback; simpl;
    try destruct (action t); simpl;
    eexists; (split; [rewrite <- ?app_assoc; simpl; reflexivity | by repeat constructor]).
Qed.

(** One request leaves per call of [safeFetch], no more. *)
Lemma safeFetch_one_request (url : jsstring) (o : options) (timeout : option N)
    (net : network) (w : world) :
  ∃ rest, trace (snd (safeFetch url o timeout net w))
          = trace w ++ Fetch (request_of url o w) :: rest
          ∧ Forall (fun e => is_fetch e = false) rest.
Proof.
  rewrite safeFetch_unfold. unfold try_catch, bind.
  destruct (fetch_one_request (request_of url o w) net (armed timeout w))
    as (rest & Hrest & Hq).
  exists rest. split; [|done].
  change (trace w) with (trace (armed timeout w)). rewrite <- Hrest.
  destruct (fetch _ net _) as [[res|e|] w1]; simpl.
  - destruct (on_response res (next_timer w) w1) as [[data|e|] w2] eqn:E; simpl.
    + change w2 with (snd (Returns data, w2)). rewrite <- E. apply on_response_trace.
    + rewrite on_failure_trace.
      change w2 with (snd (@Throws json e, w2)). rewrite <- E. apply on_response_trace.
    + change w2 with (snd (@Suspended json, w2)). rewrite <- E. apply on_response_trace.
  - apply on_failure_trace.
  - done.
Qed.

Lemma posted_request (path : jsstring) (payload : json) (w : world) :
  request_of (API_URL ++ path) (POST payload) (entered SignupBtn w) = posted path payload w
  ∧ request_of (API_URL ++ path) (POST payload) (entered LoginBtn w) = posted path payload w.
Proof.
  unfold request_of, posted, POST, merged_headers.
  cbn [opt_method opt_body opt_headers default].
  by rewrite !entered_controllers, (left_id_L ∅ (∪)).
Qed.

(** A [try] block that starts with [safeFetch], its [catch] and its
    [finally] add one request to the trace between them. *)
Lemma one_request_sent {A} (url : jsstring) (o : options) (net : network)
    (k : json → M A) (h : js_error → M A) (f : M unit) (w : world) :
  (∀ data, respects quiet (k data)) → (∀ e, respects quiet (h e)) → respects quiet f →
  ∃ rest,
    trace (snd (try_finally (try_catch (bind (safeFetch url o None net) k) h) f w))
    = trace w ++ Fetch (request_of url o w) :: rest
    ∧ Forall (fun e => is_fetch e = false) rest.
Proof.
  intros Hk Hh Hf.
  destruct (safeFetch_one_request url o None net w) as (r0 & H0 & F0).
  destruct (bind_after quiet (safeFetch url o None net) k w Hk) as (r1 & H1 & F1).
  destruct (try_catch_after quiet (bind (safeFetch url o None net) k) h w Hh)
    as (r2 & H2 & F2).
  destruct (try_finally_after quiet
              (try_catch (bind (safeFetch url o None net) k) h) f w Hf)
    as (r3 & H3 & F3).
  exists (r0 ++ r1 ++ r2 ++ r3). split.
  - rewrite H3, H2, H1, H0. by rewrite <- !app_assoc.
  - by repeat apply Forall_app_2.
Qed.

(** X8. A signup that passes validation sends exactly one request: a POST
    to /register whose body is the JSON text of the trimmed username, the
    trimmed email and the password as typed, in that order. *)
Theorem signup_request (net : network) (w : world) (u e p : jsstring) :
  registerUser (doc w) = Some u → registerEmail (doc w) = Some e →
  registerPass (doc w) = Some p →
  trim u ≠ [] → trim e ≠ [] → (6 ≤ length p)%nat →
  ∃ rest,
    trace (snd (signupForm_submit net w))
    = trace w ++ PreventDefault
        :: Fetch (posted (utf16 "/register") (signup_body (trim u) (trim e) p) w) :: rest
    ∧ Forall (fun ev => is_fetch ev = false) rest.
Proof.
  intros Hu He Hp Hu' He' Hp'.
  rewrite (signupForm_submit_valid net w u e p) by done.
  destruct (one_request_sent (API_URL ++ utf16 "/register")
              (POST (signup_body (trim u) (trim e) p)) net
              (fun _ => showSuccess (utf16 "✅ Registration successful! You can now log in.");;
                        container_remove_active)
              signup_catch
              (setButtonLoading (button_ref SignupBtn w) (Some false) (Some (utf16 "Sign Up")))
              (entered SignupBtn w)) as (rest & Hrest & Hq).
  - intros ?. quiet_tac.
  - intros ?. quiet_tac.
  - quiet_tac.
  - exists rest. split; [|done].
    etrans; [exact Hrest|].
    rewrite entered_trace, (proj1 (posted_request _ _ w)). by rewrite <- app_assoc.
Qed.

Lemma signup_request_witness :
  ∃ rest,
    trace (snd (signupForm_submit NeverSettles
                  (loaded (utf16 " bob ") (utf16 "bob@example.org") (utf16 "secret ") [] [])))
    = PreventDefault
        :: Fetch (posted (utf16 "/register")
                    (signup_body (utf16 "bob") (utf16 "bob@example.org") (utf16 "secret "))
                    (loaded (utf16 " bob ") (utf16 "bob@example.org") (utf16 "secret ") [] []))
        :: rest.
Proof.
  destruct (signup_request NeverSettles
              (loaded (utf16 " bob ") (utf16 "bob@example.org") (utf16 "secret ") [] [])
              (utf16 " bob ") (utf16 "bob@example.org") (utf16 "secret ")
              eq_refl eq_refl eq_refl) as (rest & H & _).
  - by vm_compute.
  - by vm_compute.
  - vm_compute. lia.
  - exists rest. etrans; [exact H|]. by vm_compute.
Defined.

(** X11. A login that passes validation sends exactly one request: a POST
    to /login whose body is the JSON text of the trimmed username and the
    password as typed.  The password has no minimum length here. *)
Theorem login_request (net : network) (w : world) (u p : jsstring) :
  loginUser (doc w) = Some u → loginPass (doc w) = Some p →
  trim u ≠ [] → p ≠ [] →
  ∃ rest,
    trace (snd (loginForm_submit net w))
    = trace w ++ PreventDefault
        :: Fetch (posted (utf16 "/login") (login_body (trim u) p) w) :: rest
    ∧ Forall (fun ev => is_fetch ev = false) rest.
Proof.
  intros Hu Hp Hu' Hp'.
  rewrite (loginForm_submit_valid net w u p) by done.
  destruct (one_request_sent (API_URL ++ utf16 "/login")
              (POST (login_body (trim u) p)) net
              (fun data =>
                 token ← lift (property (utf16 "token") data);
                 (if negb (is_truthy token) then throw (Error no_token) else ret tt);;
                 text ← lift (toString_opt token);
                 localStorage_setItem (utf16 "todo_token") text;;
                 localStorage_setItem (utf16 "todo_username") (trim u);;
                 showSuccess (utf16 "✅ Login successful! Redirecting...");;
                 setTimeout (Navigate (utf16 "app.html")) 1200;;
                 ret tt)
              login_catch
              (setButtonLoading (button_ref LoginBtn w) (Some false) (Some (utf16 "Sign In")))
              (entered LoginBtn w)) as (rest & Hrest & Hq).
  - intros ?. quiet_tac.
  - intros ?. quiet_tac.
  - quiet_tac.
  - exists rest. split; [|done].
    etrans; [exact Hrest|].
    rewrite entered_trace, (proj2 (posted_request _ _ w)). by rewrite <- app_assoc.
Qed.

Lemma login_request_witness :
  ∃ rest,
    trace (snd (loginForm_submit (arrives 40 401 None)
                  (loaded [] [] [] (utf16 "ann ") (utf16 "x"))))
    = PreventDefault
        :: Fetch (posted (utf16 "/login") (login_body (utf16 "ann") (utf16 "x"))
                    (loaded [] [] [] (utf16 "ann ") (utf16 "x")))
        :: rest.
Proof.
  destruct (login_request (arrives 40 401 None)
              (loaded [] [] [] (utf16 "ann ") (utf16 "x"))
              (utf16 "ann ") (utf16 "x") eq_refl eq_refl) as (rest & H & _).
  - by vm_compute.
  - by vm_compute.
  - exists rest. etrans; [exact H|]. by vm_compute.
Defined.

Lemma setButtonLoading_status b l t : respects (same status_of) (setButtonLoading b l t).
Proof. respects_tac. Qed.

Lemma setButtonLoading_container b l t :
  respects (same container_of) (setButtonLoading b l t).
Proof. respects_tac. Qed.

Lemma showMessage_container msg ty : respects (same container_of) (showMessage msg ty).
Proof. respects_tac. Qed.

Lemma entered_status b w : status_of (entered b w) = status_of w.
Proof. unfold entered. by rewrite setButtonLoading_status. Qed.

Lemma entered_container b w : container_of (entered b w) = container_of w.
Proof. unfold entered. by rewrite setButtonLoading_container. Qed.

(** The wrapper leaves the document alone. *)
Lemma safeFetch_doc (url : jsstring) (o : options) (timeout : option N)
    (net : network) (w : world) :
  fresh_controllers w → doc (snd (safeFetch url o timeout net w)) = doc w.
Proof.
  intros Hw. rewrite safeFetch_spec by done.
  by destruct (race net _) as [[res|e]|].
Qed.

(** What [safeFetch] ends with follows [request_failure]. *)
Lemma safeFetch_failure (url : jsstring) (o : options) (net : network)
    (e : js_error) (w : world) :
  fresh_controllers w → request_failure net = Some e →
  fst (safeFetch url o None net w) = Throws e.
Proof.
  intros Hw Hf. rewrite safeFetch_spec by done.
  destruct net as [ms s|]; simpl in *; [|by simplify_eq].
  destruct (ms <? 10000); [|by simplify_eq].
  destruct s as [r|e0]; [|by simplify_eq].
  destruct (settle r); by simplify_eq.
Qed.

Lemma console_error_storage args : respects (same localStorage) (console_error args).
Proof. respects_tac. Qed.

Lemma console_error_container args : respects (same container_of) (console_error args).
Proof. respects_tac. Qed.

(** The two [catch] blocks share their shape: log, then show. *)
Lemma report_run (label fallback : jsstring) (err : js_error) (w : world) :
  let m := console_error [VStr label; VError err];; showError (message_or err fallback) in
  m w = (Returns tt, snd (m w))
  ∧ status_of (snd (m w))
    = (fun _ => showing (message_or err fallback) (utf16 "error")) <$> status_of w
  ∧ trace (snd (m w)) = trace w ++ [Console ErrorChannel [VStr label; VError err]]
  ∧ localStorage (snd (m w)) = localStorage w
  ∧ container_of (snd (m w)) = container_of w.
Proof.
  intros m. subst m. unfold showError, status_of.
  erewrite bind_returns by apply console_error_run.
  rewrite showMessage_run. cbn [fst snd].
  rewrite showMessage_shows, showMessage_trace, showMessage_storage,
    showMessage_container, console_error_trace. simpl.
  split; [done|]. split; [|split; [done|split]].
  - pose proof (console_error_element label err w) as H.
    destruct (errorMessage (doc (snd (console_error _ w)))) as [x|] eqn:E1,
             (errorMessage (doc w)) as [y|] eqn:E2; simpl; try done.
    + destruct H as [H _]. by destruct H.
    + destruct H as [_ H]. by destruct H.
  - apply console_error_storage.
  - apply console_error_container.
Qed.

(** A [try] block that throws, under a reporting [catch] and a
    [finally] that resets the button. *)
Lemma failure_reported (label fallback text : jsstring) (b : option button_id)
    (m : M unit) (err : js_error) (w : world) :
  fst (m w) = Throws err →
  let h := fun e => console_error [VStr label; VError e];; showError (message_or e fallback) in
  let run := try_finally (try_catch m h) (setButtonLoading b (Some false) (Some text)) w in
  fst run = Returns tt
  ∧ status_of (snd run)
    = (fun _ => showing (message_or err fallback) (utf16 "error")) <$> status_of (snd (m w))
  ∧ trace (snd run)
    = trace (snd (m w)) ++ [Console ErrorChannel [VStr label; VError err]]
  ∧ localStorage (snd run) = localStorage (snd (m w))
  ∧ container_of (snd run) = container_of (snd (m w)).
Proof.
  intros Hm h run. subst run h. unfold try_finally, try_catch.
  destruct (m w) as [out w1]. simpl in Hm. subst out. cbn [snd].
  destruct (report_run label fallback err w1) as (Hrun & Hs & Ht & Hl & Hc).
  cbv zeta in Hrun. rewrite Hrun, setButtonLoading_run. cbn [fst snd].
  rewrite setButtonLoading_status, setButtonLoading_trace, setButtonLoading_storage,
    setButtonLoading_container.
  by rewrite Hs, Ht, Hl, Hc.
Qed.

Lemma signup_try_throws (u e p : jsstring) (net : network) (err : js_error) (w : world) :
  fresh_controllers w → request_failure net = Some err →
  fst (signup_try u e p net w) = Throws err
  ∧ snd (signup_try u e p net w)
    = snd (safeFetch (API_URL ++ utf16 "/register") (POST (signup_body u e p)) None net w).
Proof.
  intros Hw Hf. unfold signup_try, bind.
  pose proof (safeFetch_failure (API_URL ++ utf16 "/register")
                (POST (signup_body u e p)) net err w Hw Hf) as Hthrow.
  destruct (safeFetch _ _ None net w) as [out w1]. simpl in *. by subst out.
Qed.

Lemma login_try_throws (u p : jsstring) (net : network) (err : js_error) (w : world) :
  fresh_controllers w → request_failure net = Some err →
  fst (login_try u p net w) = Throws err
  ∧ snd (login_try u p net w)
    = snd (safeFetch (API_URL ++ utf16 "/login") (POST (login_body u p)) None net w).
Proof.
  intros Hw Hf. unfold login_try, bind.
  pose proof (safeFetch_failure (API_URL ++ utf16 "/login")
                (POST (login_body u p)) net err w Hw Hf) as Hthrow.
  destruct (safeFetch _ _ None net w) as [out w1]. simpl in *. by subst out.
Qed.

Lemma safeFetch_kept (url : jsstring) (o : options) (net : network) (w : world) :
  fresh_controllers w →
  status_of (snd (safeFetch url o None net w)) = status_of w
  ∧ container_of (snd (safeFetch url o None net w)) = container_of w
  ∧ localStorage (snd (safeFetch url o None net w)) = localStorage w.
Proof.
  intros Hw. unfold status_of, container_of. rewrite safeFetch_doc by done.
  by rewrite safeFetch_storage.
Qed.

(** X7. A signup whose request fails, by timeout, network error, a body
    that is not JSON or a status that is not ok, ends normally: the error
    is passed to the original console.error after the text "Signup
    Error:", the status element shows the error's message, or
    "Registration failed" when that is empty, the form shown stays the
    same and nothing is stored. *)
Theorem signup_failure_reported (net : network) (err : js_error) (w : world)
    (u e p : jsstring) :
  fresh_controllers w →
  registerUser (doc w) = Some u → registerEmail (doc w) = Some e →
  registerPass (doc w) = Some p →
  trim u ≠ [] → trim e ≠ [] → (6 ≤ length p)%nat →
  request_failure net = Some err →
  let run := signupForm_submit net w in
  fst run = Returns tt
  ∧ errorMessage (doc (snd run))
    = (fun _ => showing (if nonempty (err_message err) then err_message err
                         else utf16 "❌ Registration failed. Try again.")
                  (utf16 "error")) <$> errorMessage (doc w)
  ∧ last (trace (snd run))
    = Some (Console ErrorChannel [VStr (utf16 "Signup Error:"); VError err])
  ∧ container (doc (snd run)) = container (doc w)
  ∧ localStorage (snd run) = localStorage w.
Proof.
  intros Hw Hu He Hp Hu' He' Hp' Hfail run. subst run.
  rewrite (signupForm_submit_valid net w u e p) by done.
  pose proof (entered_fresh_controllers SignupBtn w Hw) as Hw1.
  destruct (signup_try_throws (trim u) (trim e) p net err (entered SignupBtn w) Hw1 Hfail)
    as [Hthrow Hstate].
  destruct (failure_reported (utf16 "Signup Error:")
              (utf16 "❌ Registration failed. Try again.") (utf16 "Sign Up")
              (button_ref SignupBtn w) (signup_try (trim u) (trim e) p net) err
              (entered SignupBtn w) Hthrow) as (H1 & H2 & H3 & H4 & H5).
  destruct (safeFetch_kept (API_URL ++ utf16 "/register")
              (POST (signup_body (trim u) (trim e) p)) net (entered SignupBtn w) Hw1)
    as (K1 & K2 & K3).
  rewrite Hstate in H2, H4, H5. rewrite K1, entered_status in H2.
  rewrite K3, entered_localStorage in H4. rewrite K2, entered_container in H5.
  split; [exact H1|]. split; [exact H2|]. split; [|split; [exact H5 | exact H4]].
  etrans; [apply (f_equal last H3)|]. by rewrite last_snoc.
Qed.

Lemma signup_failure_reported_witness :
  let w := loaded (utf16 "bob") (utf16 "bob@example.org") (utf16 "secret1") [] [] in
  let net := arrives 30 422
               (Some (JObj [(utf16 "message", JObj [(utf16 "toString", JNull)])])) in
  request_failure net
  = Some (TypeError (utf16 "Cannot convert object to primitive value"))
  ∧ textContent <$> errorMessage (doc (snd (signupForm_submit net w)))
    = Some (utf16 "Cannot convert object to primitive value")
  ∧ textContent <$> errorMessage
                      (doc (snd (signupForm_submit (SettlesAfter 30 (Rejects (TypeError []))) w)))
    = Some (utf16 "❌ Registration failed. Try again.").
Proof.
  intros w net. split; [by vm_compute|]. split.
  - destruct (signup_failure_reported net
                (TypeError (utf16 "Cannot convert object to primitive value"))
                w (utf16 "bob") (utf16 "bob@example.org") (utf16 "secret1"))
      as (_ & H & _).
    + apply loaded_fresh_controllers.
    + reflexivity.
    + reflexivity.
    + reflexivity.
    + by vm_compute.
    + by vm_compute.
    + vm_compute. lia.
    + by vm_compute.
    + rewrite H. by vm_compute.
  - destruct (signup_failure_reported (SettlesAfter 30 (Rejects (TypeError [])))
                (TypeError []) w (utf16 "bob") (utf16 "bob@example.org") (utf16 "secret1"))
      as (_ & H & _).
    + apply loaded_fresh_controllers.
    + reflexivity.
    + reflexivity.
    + reflexivity.
    + by vm_compute.
    + by vm_compute.
    + vm_compute. lia.
    + by vm_compute.
    + by rewrite H.
Defined.

(** X12. A login whose request fails ends normally: the error is passed
    to the original console.error after the text "Login Error:", the
    status element shows the error's message, or "Login failed. Check
    credentials." when that is empty, and nothing is stored. *)
Theorem login_failure_reported (net : network) (err : js_error) (w : world)
    (u p : jsstring) :
  fresh_controllers w →
  loginUser (doc w) = Some u → loginPass (doc w) = Some p →
  trim u ≠ [] → p ≠ [] →
  request_failure net = Some err →
  let run := loginForm_submit net w in
  fst run = Returns tt
  ∧ errorMessage (doc (snd run))
    = (fun _ => showing (if nonempty (err_message err) then err_message err
                         else utf16 "❌ Login failed. Check credentials.")
                  (utf16 "error")) <$> errorMessage (doc w)
  ∧ last (trace (snd run))
    = Some (Console ErrorChannel [VStr (utf16 "Login Error:"); VError err])
  ∧ localStorage (snd run) = localStorage w.
Proof.
  intros Hw Hu Hp Hu' Hp' Hfail run. subst run.
  rewrite (loginForm_submit_valid net w u p) by done.
  pose proof (entered_fresh_controllers LoginBtn w Hw) as Hw1.
  destruct (login_try_throws (trim u) p net err (entered LoginBtn w) Hw1 Hfail)
    as [Hthrow Hstate].
  destruct (failure_reported (utf16 "Login Error:")
              (utf16 "❌ Login failed. Check credentials.") (utf16 "Sign In")
              (button_ref LoginBtn w) (login_try (trim u) p net) err
              (entered LoginBtn w) Hthrow) as (H1 & H2 & H3 & H4 & _).
  destruct (safeFetch_kept (API_URL ++ utf16 "/login")
              (POST (login_body (trim u) p)) net (entered LoginBtn w) Hw1)
    as (K1 & _ & K3).
  rewrite Hstate in H2, H4. rewrite K1, entered_status in H2.
  rewrite K3, entered_localStorage in H4.
  split; [exact H1|]. split; [exact H2|]. split; [|exact H4].
  etrans; [apply (f_equal last H3)|]. by rewrite last_snoc.
Qed.

Lemma login_failure_reported_witness :
  let w := loaded [] [] [] (utf16 "ann") (utf16 "pw") in
  let net := arrives 60 500 (Some (JObj [(utf16 "error", JObj [(utf16 "toString", JNum
               {| num_truthy := true; num_text := utf16 "1" |})])])) in
  (request_failure NeverSettles
   = Some (Error (utf16 "⏳ Request timed out. Please try again."))
   ∧ textContent <$> errorMessage (doc (snd (loginForm_submit NeverSettles w)))
     = Some (utf16 "⏳ Request timed out. Please try again."))
  ∧ (request_failure net
     = Some (TypeError (utf16 "Cannot convert object to primitive value"))
     ∧ textContent <$> errorMessage (doc (snd (loginForm_submit net w)))
       = Some (utf16 "Cannot convert object to primitive value")).
Proof.
  intros w net. split; (split; [by vm_compute|]).
  - destruct (login_failure_reported NeverSettles
                (Error (utf16 "⏳ Request timed out. Please try again."))
                w (utf16 "ann") (utf16 "pw"))
      as (_ & H & _).
    + apply loaded_fresh_controllers.
    + reflexivity.
    + reflexivity.
    + by vm_compute.
    + by vm_compute.
    + by vm_compute.
    + rewrite H. by vm_compute.
  - destruct (login_failure_reported net
                (TypeError (utf16 "Cannot convert object to primitive value"))
                w (utf16 "ann") (utf16 "pw"))
      as (_ & H & _).
    + apply loaded_fresh_controllers.
    + reflexivity.
    + reflexivity.
    + by vm_compute.
    + by vm_compute.
    + by vm_compute.
    + rewrite H. by vm_compute.
Defined.

Lemma signup_try_arrived (u e p : jsstring) (ms st : N) (data : json) (w : world) :
  fresh_controllers w → ms < 10000 → 200 ≤ st ≤ 299 →
  let w1 := snd (showSuccess (utf16 "✅ Registration successful! You can now log in.")
                   (cleared (next_timer w)
                      (sent (request_of (API_URL ++ utf16 "/register")
                               (POST (signup_body u e p)) w) (armed None w)))) in
  signup_try u e p (arrives ms st (Some data)) w = container_remove_active w1
  ∧ status_of w1
    = (fun _ => showing (utf16 "✅ Registration successful! You can now log in.")
                  (utf16 "success")) <$> status_of w
  ∧ container_of w1 = container_of w
  ∧ localStorage w1 = localStorage w
  ∧ trace w1 = trace w ++ [Fetch (request_of (API_URL ++ utf16 "/register")
                                    (POST (signup_body u e p)) w)].
Proof.
  intros Hw Hms Hst w1. subst w1. unfold signup_try.
  erewrite bind_returns; last first.
  { rewrite safeFetch_arrived by done. unfold settle. simpl.
    rewrite is_ok by done. reflexivity. }
  unfold showSuccess. erewrite bind_returns by apply showMessage_run.
  split; [done|]. unfold status_of.
  by rewrite showMessage_shows, showMessage_container, showMessage_storage,
    showMessage_trace.
Qed.

(** X5. A signup that passes validation and is answered in time by any
    2xx response with a JSON body, on a page that has the container:
    the success message is shown, the container loses "active" (the login
    form shows), the button is idle again, nothing is logged or stored,
    and one request has left. *)
Theorem signup_success (ms st : N) (data : json) (u e p : jsstring) (c : bool)
    (w : world) :
  fresh_controllers w →
  registerUser (doc w) = Some u → registerEmail (doc w) = Some e →
  registerPass (doc w) = Some p →
  trim u ≠ [] → trim e ≠ [] → (6 ≤ length p)%nat →
  ms < 10000 → 200 ≤ st ≤ 299 →
  container (doc w) = Some c →
  let run := signupForm_submit (arrives ms st (Some data)) w in
  fst run = Returns tt
  ∧ errorMessage (doc (snd run))
    = (fun _ => showing (utf16 "✅ Registration successful! You can now log in.")
                  (utf16 "success")) <$> errorMessage (doc w)
  ∧ container (doc (snd run)) = Some false
  ∧ trace (snd run)
    = trace w ++ [PreventDefault;
                  Fetch (posted (utf16 "/register") (signup_body (trim u) (trim e) p) w)]
  ∧ localStorage (snd run) = localStorage w.
Proof.
  intros Hw Hu He Hp Hu' He' Hp' Hms Hst Hc run. subst run.
  rewrite (signupForm_submit_valid _ w u e p) by done.
  pose proof (entered_fresh_controllers SignupBtn w Hw) as Hw1.
  destruct (signup_try_arrived (trim u) (trim e) p ms st data (entered SignupBtn w)
              Hw1 Hms Hst) as (Hrun & Hs & Hcont & Hl & Ht).
  cbv zeta in *. set (w1 := snd (showSuccess _ _)) in *.
  rewrite entered_status in Hs. rewrite entered_container in Hcont.
  rewrite entered_localStorage in Hl.
  rewrite entered_trace, (proj1 (posted_request _ _ w)), <- app_assoc in Ht.
  assert (container_remove_active w1
          = (Returns tt, with_doc (with_container (Some false)) w1)) as Hrem.
  { unfold container_remove_active, bind, gets. simpl.
    unfold container_of in Hcont. by rewrite Hcont, Hc. }
  unfold try_finally, try_catch. rewrite Hrun, Hrem, setButtonLoading_run.
  cbn [fst snd].
  change (errorMessage (doc ?x)) with (status_of x).
  change (container (doc ?x)) with (container_of x).
  rewrite setButtonLoading_status, setButtonLoading_container,
    setButtonLoading_trace, setButtonLoading_storage.
  unfold status_of, container_of in *. simpl.
  by rewrite Hs, Hl, Ht.
Qed.

Lemma signup_success_witness :
  let w := loaded (utf16 "bob") (utf16 "bob@example.org") (utf16 "secret1") [] [] in
  let run := signupForm_submit (arrives 90 201 (Some JNull)) w in
  container (doc w) = Some true
  ∧ container (doc (snd run)) = Some false
  ∧ textContent <$> errorMessage (doc (snd run))
    = Some (utf16 "✅ Registration successful! You can now log in.").
Proof.
  intros w run. subst run. split; [reflexivity|].
  destruct (signup_success 90 201 JNull (utf16 "bob") (utf16 "bob@example.org")
              (utf16 "secret1") true w) as (_ & H1 & H2 & _).
  - apply loaded_fresh_controllers.
  - reflexivity.
  - reflexivity.
  - reflexivity.
  - by vm_compute.
  - by vm_compute.
  - vm_compute. lia.
  - reflexivity.
  - by vm_compute.
  - reflexivity.
  - split; [exact H2|]. by rewrite H1.
Defined.

(** X6. On a page without the container a signup that the server
    accepted still ends as a failure: removing the class throws inside
    the [try] block, so the error is logged and its text replaces the
    success message. *)
Theorem signup_success_without_container (ms st : N) (data : json) (u e p : jsstring)
    (w : world) :
  fresh_controllers w →
  registerUser (doc w) = Some u → registerEmail (doc w) = Some e →
  registerPass (doc w) = Some p →
  trim u ≠ [] → trim e ≠ [] → (6 ≤ length p)%nat →
  ms < 10000 → 200 ≤ st ≤ 299 →
  container (doc w) = None →
  let run := signupForm_submit (arrives ms st (Some data)) w in
  let err := TypeError (utf16 "Cannot read properties of null (reading 'classList')") in
  fst run = Returns tt
  ∧ errorMessage (doc (snd run))
    = (fun _ => showing (err_message err) (utf16 "error")) <$> errorMessage (doc w)
  ∧ trace (snd run)
    = trace w ++ [PreventDefault;
                  Fetch (posted (utf16 "/register") (signup_body (trim u) (trim e) p) w);
                  Console ErrorChannel [VStr (utf16 "Signup Error:"); VError err]].
Proof.
  intros Hw Hu He Hp Hu' He' Hp' Hms Hst Hc run err. subst run.
  rewrite (signupForm_submit_valid _ w u e p) by done.
  pose proof (entered_fresh_controllers SignupBtn w Hw) as Hw1.
  destruct (signup_try_arrived (trim u) (trim e) p ms st data (entered SignupBtn w)
              Hw1 Hms Hst) as (Hrun & Hs & Hcont & Hl & Ht).
  cbv zeta in *. set (w1 := snd (showSuccess _ _)) in *.
  rewrite entered_container in Hcont.
  rewrite entered_trace, (proj1 (posted_request _ _ w)), <- app_assoc in Ht.
  assert (container_remove_active w1 = (Throws err, w1)) as Hrem.
  { unfold container_remove_active, bind, gets. simpl.
    unfold container_of in Hcont. rewrite Hcont, Hc. subst err.
    unfold throw, null_property.
    assert (utf16 "Cannot read properties of null (reading '" ++ utf16 "classList" ++ utf16 "')"
            = utf16 "Cannot read properties of null (reading 'classList')") as ->
      by (by vm_compute).
    done. }
  assert (fst (signup_try (trim u) (trim e) p (arrives ms st (Some data))
                 (entered SignupBtn w)) = Throws err) as Hthrow by (by rewrite Hrun, Hrem).
  destruct (failure_reported (utf16 "Signup Error:")
              (utf16 "❌ Registration failed. Try again.") (utf16 "Sign Up")
              (button_ref SignupBtn w) _ err (entered SignupBtn w) Hthrow)
    as (H1 & H2 & H3 & _).
  rewrite Hrun, Hrem in H2, H3. cbn [snd] in H2, H3.
  assert (message_or err (utf16 "❌ Registration failed. Try again.") = err_message err)
    as Hmsg by (subst err; vm_compute; reflexivity).
  rewrite Hmsg in H2.
  split; [exact H1|]. split.
  - etrans; [exact H2|]. rewrite Hs, entered_status. unfold status_of.
    by destruct (errorMessage (doc w)).
  - etrans; [exact H3|]. rewrite Ht. by rewrite <- app_assoc.
Qed.

Lemma signup_success_without_container_witness :
  let w := with_doc (with_container None)
             (loaded (utf16 "bob") (utf16 "bob@example.org") (utf16 "secret1") [] []) in
  textContent <$> errorMessage (doc (snd (signupForm_submit (arrives 90 201 (Some (JObj []))) w)))
  = Some (utf16 "Cannot read properties of null (reading 'classList')").
Proof.
  intros w.
  destruct (signup_success_without_container 90 201 (JObj []) (utf16 "bob")
              (utf16 "bob@example.org") (utf16 "secret1") w) as (_ & H & _).
  - apply Forall_nil_2.
  - reflexivity.
  - reflexivity.
  - reflexivity.
  - by vm_compute.
  - by vm_compute.
  - vm_compute. lia.
  - reflexivity.
  - by vm_compute.
  - reflexivity.
  - rewrite H. by vm_compute.
Defined.

(** X9. The signup handler never writes to localStorage, whatever the
    form holds and whatever the network does. *)
Theorem signup_never_stores (net : network) (w : world) :
  localStorage (snd (signupForm_submit net w)) = localStorage w.
Proof.
  revert w. change (respects (same localStorage) (signupForm_submit net)).
  unfold signupForm_submit. respects_script.
Qed.

(** X10. A login whose trimmed username or whose password is empty does
    nothing but intercept the submit and show "Username and password are
    required.": no request leaves, the button is not touched and nothing
    is stored. *)
Theorem login_rejected_locally (net : network) (w : world) (u p : jsstring) :
  loginUser (doc w) = Some u → loginPass (doc w) = Some p →
  trim u = [] ∨ p = [] →
  let run := loginForm_submit net w in
  fst run = Returns tt
  ∧ trace (snd run) = trace w ++ [PreventDefault]
  ∧ errorMessage (doc (snd run))
    = (fun _ => showing (utf16 "⚠️ Username and password are required.") (utf16 "error"))
        <$> errorMessage (doc w)
  ∧ button_of LoginBtn (snd run) = button_of LoginBtn w
  ∧ localStorage (snd run) = localStorage w.
Proof.
  intros Hu Hp Hbad run. subst run.
  assert (loginForm_submit net w
          = (emit PreventDefault;;
             showError (utf16 "⚠️ Username and password are required.")) w) as ->.
  { unfold loginForm_submit.
    erewrite !bind_returns by reflexivity.
    erewrite bind_returns by (apply value_of_some; exact Hu).
    cbv zeta.
    erewrite bind_returns by (apply value_of_some; exact Hp).
    assert (negb (nonempty (trim u)) || negb (nonempty p) = true) as ->; [|done].
    destruct Hbad as [->| ->]; simpl; [done|]. by rewrite orb_true_r. }
  unfold showError. erewrite bind_returns by reflexivity.
  rewrite showMessage_run. cbn [fst snd].
  by rewrite showMessage_trace, showMessage_button_of, showMessage_shows,
    showMessage_storage.
Qed.

Lemma login_rejected_locally_witness :
  let w := loaded [] [] [] (utf16 "   ") (utf16 "pw") in
  trim (utf16 "   ") = []
  ∧ trace (snd (loginForm_submit NeverSettles w)) = [PreventDefault].
Proof.
  intros w. split; [by vm_compute|].
  refine (proj1 (proj2 (login_rejected_locally NeverSettles w (utf16 "   ") (utf16 "pw")
                          eq_refl eq_refl _))).
  left. by vm_compute.
Defined.

(** ** What login stores *)

Lemma trimStart_snoc (l : jsstring) (c : N) :
  is_space c = false → trimStart (l ++ [c]) = trimStart l ++ [c].
Proof.
  intros Hc. induction l as [|x l IH]; simpl; [by rewrite Hc|].
  by destruct (is_space x).
Qed.

Lemma trimStart_fixed (s : jsstring) : trimStart (trimStart s) = trimStart s.
Proof.
  induction s as [|c r IH]; [done|]. simpl.
  destruct (is_space c) eqn:E; [done|]. simpl. by rewrite E.
Qed.

Lemma trimStart_head (s : jsstring) (c : N) (r : jsstring) :
  trimStart s = c :: r → is_space c = false.
Proof.
  induction s as [|x l IH]; [done|]. simpl.
  destruct (is_space x) eqn:E; [done|]. by intros [= <- _].
Qed.

Lemma trimEnd_cons (c : N) (r : jsstring) :
  is_space c = false → trimEnd (c :: r) = c :: trimEnd r.
Proof.
  intros Hc. unfold trimEnd. simpl.
  by rewrite trimStart_snoc, rev_app_distr.
Qed.

(** [trim] gives a text that [trim] leaves as it is. *)
Lemma trim_fixed (s : jsstring) : trim (trim s) = trim s.
Proof.
  unfold trim. destruct (trimStart s) as [|c r] eqn:E; [done|].
  pose proof (trimStart_head s c r E) as Hc.
  rewrite trimEnd_cons by done. simpl. rewrite Hc.
  rewrite trimEnd_cons by done. f_equal.
  unfold trimEnd. by rewrite rev_involutive, trimStart_fixed.
Qed.

Lemma lift_run {A} (x : js_error + A) (w : world) :
  lift x w = (match x with inl e => Throws e | inr a => Returns a end, w).
Proof. by destruct x. Qed.

Lemma safeFetch_storage_accepts url o timeout net :
  respects (same storage_accepts) (safeFetch url o timeout net).
Proof. unfold safeFetch, on_response, on_failure, fetch, json_of. respects_tac. Qed.

(** What the [try] block of login leaves in localStorage: nothing, the
    token alone when the browser refuses the second entry, or both
    entries. *)
Lemma login_try_stores (u p : jsstring) (net : network) (w : world) :
  let run := login_try u p net w in
  localStorage (snd run) = localStorage w
  ∨ (∃ tok,
       localStorage (snd run) = <[utf16 "todo_token" := tok]> (localStorage w)
       ∧ storage_accepts w (<[utf16 "todo_token" := tok]> (localStorage w))
           (utf16 "todo_username") u = false
       ∧ fst run = Throws (quota_exceeded (utf16 "todo_username")))
  ∨ (∃ tok,
       localStorage (snd run)
       = <[utf16 "todo_username" := u]> (<[utf16 "todo_token" := tok]> (localStorage w))
       ∧ fst run = Returns tt
       ∧ ∃ id, {| timer_id := id; delay := 1200; action := Navigate (utf16 "app.html") |}
               ∈ timers (snd run)).
Proof.
  intros run. subst run. unfold login_try.
  pose proof (safeFetch_storage (API_URL ++ utf16 "/login") (POST (login_body u p))
                None net w) as Hs. unfold same in Hs.
  pose proof (safeFetch_storage_accepts (API_URL ++ utf16 "/login")
                (POST (login_body u p)) None net w) as Ha. unfold same in Ha.
  destruct (safeFetch _ _ None net w) as [[data|e|] w1] eqn:Esf; simpl in Hs, Ha.
  - erewrite bind_returns by exact Esf.
    destruct (property (utf16 "token") data) as [e|token].
    { left. by erewrite bind_throws by reflexivity. }
    erewrite bind_returns by reflexivity.
    destruct (is_truthy token) eqn:Etok; simpl; [|by left].
    erewrite bind_returns by reflexivity.
    destruct (toString_opt token) as [e|tok].
    { left. by erewrite bind_throws by reflexivity. }
    erewrite bind_returns by reflexivity.
    destruct (storage_accepts w1 (localStorage w1) (utf16 "todo_token") tok) eqn:Eroom1.
    2:{ left. by erewrite bind_throws by (by apply setItem_refused). }
    erewrite bind_returns by (by apply setItem_run).
    destruct (storage_accepts w (<[utf16 "todo_token" := tok]> (localStorage w))
                (utf16 "todo_username") u) eqn:Eroom2.
    + right. right. exists tok.
      erewrite bind_returns by (apply setItem_run; simpl; by rewrite Ha, Hs).
      erewrite bind_returns by apply showMessage_run.
      erewrite bind_returns by reflexivity.
      cbn [fst snd]. split; [|split; [done|]].
      * simpl. by rewrite showMessage_storage, Hs.
      * eexists. simpl. apply elem_of_app. right. by apply list_elem_of_singleton.
    + right. left. exists tok.
      erewrite bind_throws by (apply setItem_refused; simpl; by rewrite Ha, Hs).
      simpl. by rewrite Hs.
  - left. by erewrite bind_throws by exact Esf.
  - left. unfold bind. by rewrite Esf.
Qed.

Lemma value_of_none (field : document → option jsstring) (w : world) :
  field (doc w) = None →
  value_of field w = (Throws (null_property (utf16 "value")), w).
Proof. intros H. unfold value_of, bind, gets. simpl. by rewrite H. Qed.

(** X13. Whatever the form holds and whatever the network does, a login
    writes to localStorage in one order and leaves one of three stores.
    Nothing is written; or the token alone, which happens only when the
    browser refuses the entry for the username, and then the handler
    returns after it reported the refusal through console.error, the
    token staying in the store; or todo_token and todo_username both,
    the username being the trimmed input, not empty and free of white
    space at both ends, and then a timer due after 1200 ms is pending
    that sets the address of the page to app.html when it fires.  The
    username is never stored without the token. *)
Theorem login_writes_in_order (net : network) (w : world) :
  let run := loginForm_submit net w in
  localStorage (snd run) = localStorage w
  ∨ (∃ u tok,
       loginUser (doc w) = Some u
       ∧ localStorage (snd run) = <[utf16 "todo_token" := tok]> (localStorage w)
       ∧ storage_accepts w (<[utf16 "todo_token" := tok]> (localStorage w))
           (utf16 "todo_username") (trim u) = false
       ∧ fst run = Returns tt
       ∧ last (trace (snd run))
         = Some (Console ErrorChannel
                   [VStr (utf16 "Login Error:");
                    VError (quota_exceeded (utf16 "todo_username"))]))
  ∨ (∃ u tok,
       loginUser (doc w) = Some u
       ∧ localStorage (snd run)
         = <[utf16 "todo_username" := trim u]>
             (<[utf16 "todo_token" := tok]> (localStorage w))
       ∧ trim u ≠ [] ∧ trim (trim u) = trim u
       ∧ ∃ t, t ∈ timers (snd run) ∧ delay t = 1200
              ∧ href (fire t (snd run)) = utf16 "app.html").
Proof.
  intros run. subst run.
  destruct (loginUser (doc w)) as [u|] eqn:Hu; last first.
  { left. unfold loginForm_submit.
    erewrite !bind_returns by reflexivity.
    by erewrite bind_throws by (apply value_of_none; exact Hu). }
  destruct (loginPass (doc w)) as [p|] eqn:Hp; last first.
  { left. unfold loginForm_submit.
    erewrite !bind_returns by reflexivity.
    erewrite bind_returns by (apply value_of_some; exact Hu). cbv zeta.
    by erewrite bind_throws by (apply value_of_none; exact Hp). }
  destruct (decide (trim u = [] ∨ p = [])) as [Hbad|Hgood].
  { left. unfold loginForm_submit.
    erewrite !bind_returns by reflexivity.
    erewrite bind_returns by (apply value_of_some; exact Hu). cbv zeta.
    erewrite bind_returns by (apply value_of_some; exact Hp).
    assert (negb (nonempty (trim u)) || negb (nonempty p) = true) as ->.
    { destruct Hbad as [->| ->]; simpl; [done|]. by rewrite orb_true_r. }
    unfold showError. rewrite showMessage_run. cbn [snd].
    by rewrite showMessage_storage. }
  assert (trim u ≠ [] ∧ p ≠ []) as [Hu' Hp'] by tauto.
  rewrite (loginForm_submit_valid net w u p) by done.
  pose proof (login_try_stores (trim u) p net (entered LoginBtn w)) as Hstore.
  cbv zeta in Hstore.
  rewrite entered_storage_accepts, entered_localStorage in Hstore.
  destruct Hstore as [Hsame|[(tok & Htoken & Hroom & Hthrow)|(tok & Hboth & Hret & id & Hnav)]].
  - left. unfold try_finally, try_catch.
    destruct (login_try (trim u) p net (entered LoginBtn w)) as [[[]|e|] w1];
      cbn [fst snd] in *; [| |done].
    + rewrite setButtonLoading_run. cbn [snd]. by rewrite setButtonLoading_storage.
    + rewrite login_catch_run, setButtonLoading_run. cbn [snd].
      by rewrite setButtonLoading_storage, login_catch_storage.
  - right. left. exists u, tok.
    destruct (failure_reported (utf16 "Login Error:")
                (utf16 "❌ Login failed. Check credentials.") (utf16 "Sign In")
                (button_ref LoginBtn w) (login_try (trim u) p net)
                (quota_exceeded (utf16 "todo_username"))
                (entered LoginBtn w) Hthrow) as (H1 & _ & H3 & H4 & _).
    split; [done|]. split; [etrans; [exact H4 | exact Htoken]|].
    split; [done|]. split; [exact H1|].
    etrans; [apply (f_equal last H3)|]. by rewrite last_snoc.
  - right. right. exists u, tok. unfold try_finally, try_catch.
    destruct (login_try (trim u) p net (entered LoginBtn w)) as [out w1].
    cbn [fst snd] in *. subst out.
    rewrite setButtonLoading_run. cbn [snd].
    rewrite setButtonLoading_storage.
    split; [done|]. split; [done|]. split; [done|]. split; [apply trim_fixed|].
    exists {| timer_id := id; delay := 1200; action := Navigate (utf16 "app.html") |}.
    split; [by rewrite setButtonLoading_timers|]. by split.
Qed.

Lemma login_writes_in_order_witness :
  let full := with_storage_accepts
                (fun store key _ => bool_decide (key = utf16 "todo_token"))
                (loaded [] [] [] (utf16 "ann") (utf16 "pw")) in
  let run := loginForm_submit
               (arrives 150 200 (Some (JObj [(utf16 "token", JStr (utf16 "abc"))]))) full in
  localStorage (snd run) = {[ utf16 "todo_token" := utf16 "abc" ]}
  ∧ localStorage (snd run) !! utf16 "todo_username" = None
  ∧ (localStorage (snd run) = localStorage full
     ∨ (∃ u tok,
          loginUser (doc full) = Some u
          ∧ localStorage (snd run) = <[utf16 "todo_token" := tok]> (localStorage full)
          ∧ storage_accepts full (<[utf16 "todo_token" := tok]> (localStorage full))
              (utf16 "todo_username") (trim u) = false
          ∧ fst run = Returns tt
          ∧ last (trace (snd run))
            = Some (Console ErrorChannel
                      [VStr (utf16 "Login Error:");
                       VError (quota_exceeded (utf16 "todo_username"))]))
     ∨ (∃ u tok,
          loginUser (doc full) = Some u
          ∧ localStorage (snd run)
            = <[utf16 "todo_username" := trim u]>
                (<[utf16 "todo_token" := tok]> (localStorage full))
          ∧ trim u ≠ [] ∧ trim (trim u) = trim u
          ∧ ∃ t, t ∈ timers (snd run) ∧ delay t = 1200
                 ∧ href (fire t (snd run)) = utf16 "app.html")).
Proof.
  intros full run. subst run.
  split; [by vm_compute|]. split; [by vm_compute|].
  exact (login_writes_in_order
           (arrives 150 200 (Some (JObj [(utf16 "token", JStr (utf16 "abc"))]))) full).
Defined.

(** ** The hide timer *)

(** X14. The timer that [showMessage] sets, when it fires, hides the
    status element and changes nothing else of it; after that no hide
    timer is pending. *)
Theorem message_auto_hides (msg : jsstring) (ty : option jsstring)
    (el : status_element) (w : world) :
  fresh_timers w → hide_tracked w →
  errorMessage (doc w) = Some el →
  let shown := snd (showMessage msg ty w) in
  let hidden := fire (hide_timer_of w) shown in
  hide_timer_of w ∈ timers shown
  ∧ errorMessage (doc hidden)
    = Some {| textContent := msg;
              className := utf16 "message " ++ default (utf16 "error") ty;
              display := utf16 "none" |}
  ∧ hide_timers hidden = []
  ∧ localStorage hidden = localStorage w ∧ trace hidden = trace w.
Proof.
  intros [Hids Ht] Hhide Hel shown hidden. subst hidden shown.
  unfold showMessage, clearTimeout, setTimeout, bind, gets, modify, ret. simpl.
  rewrite Hel. unfold hide_timers, hide_tracked, fire in *. simpl.
  assert (∀ l, Forall (fun t => timer_id t < next_timer w) l →
            filter (fun t => action t = HideMessage) l = [] →
            filter (fun t => action t = HideMessage)
              (filter (fun t' => timer_id t' ≠ next_timer w) (l ++ [hide_timer_of w])) = [])
    as Hgone.
  { intros l Hl Hnone. rewrite filter_app, (filter_fresh_ids l) by done.
    rewrite (filter_cons_False _ (hide_timer_of w)) by (simpl; tauto).
    by rewrite filter_nil, app_nil_r. }
  destruct (showMessage_t w) as [i|] eqn:Ei; simpl.
  - split; [apply elem_of_app; right; by apply list_elem_of_singleton|].
    split; [done|]. split; [|done].
    apply Hgone; [|by apply filter_hide_cleared].
    apply Forall_forall. intros t Hin. apply list_elem_of_filter in Hin as [_ Hin].
    by apply (proj1 (Forall_forall _ _) Hids).
  - split; [apply elem_of_app; right; by apply list_elem_of_singleton|].
    split; [done|]. split; [|done].
    apply Hgone; [done | by apply filter_hide_none].
Qed.

Lemma message_auto_hides_witness :
  let w := loaded [] [] [] [] [] in
  let hidden := fire (hide_timer_of w) (snd (showMessage (utf16 "Saved") None w)) in
  errorMessage (doc hidden)
  = Some {| textContent := utf16 "Saved"; className := utf16 "message error";
            display := utf16 "none" |}
  ∧ hide_timers hidden = [].
Proof.
  intros w hidden. subst hidden.
  destruct (message_auto_hides (utf16 "Saved") None
              {| textContent := []; className := utf16 "message"; display := utf16 "none" |} w)
    as (_ & H1 & H2 & _).
  - vm_compute. by repeat constructor.
  - vm_compute. by repeat constructor.
  - reflexivity.
  - split; [|exact H2]. etrans; [exact H1|]. by vm_compute.
Defined.

(** ** The page over time *)

(** X15. In every state the loaded page reaches by submissions, console
    calls, timers that fire and edits of the document, at most one hide
    timer is pending, every pending abort timer belongs to a controller
    that was created, and no pending timer has an id that [setTimeout]
    has yet to hand out. *)
Theorem page_timers_well_formed (ru re rp lu lp : jsstring) (w : world) :
  reachable (loaded ru re rp lu lp) w →
  (length (hide_timers w) ≤ 1)%nat
  ∧ Forall (fun t => match action t with
                     | AbortRequest c => c < controllers w
                     | _ => True
                     end) (timers w)
  ∧ Forall (fun t => timer_id t < next_timer w) (timers w).
Proof.
  intros H. by destruct (reachable_well_formed _ _ _ _ _ _ H) as (? & [? _] & _ & ?).
Qed.

Lemma page_timers_well_formed_witness :
  let w0 := loaded [] [] [] (utf16 "ann") (utf16 "pw") in
  let w := fire {| timer_id := 1; delay := 10000; action := AbortRequest 0 |}
             (snd (loginForm_submit (SettlesAfter 5 (Rejects (TypeError (utf16 "offline")))) w0)) in
  (length (hide_timers w) ≤ 1)%nat.
Proof.
  intros w0 w.
  refine (proj1 (page_timers_well_formed [] [] [] (utf16 "ann") (utf16 "pw") w _)).
  eapply rtc_l; [apply (step_login w0 (SettlesAfter 5 (Rejects (TypeError (utf16 "offline")))))|].
  apply rtc_once. apply step_timer. by vm_compute; repeat constructor.
Defined.

(** ** The listeners around the forms *)

(** X16. With the container on the page, a click on "register" sets the
    class "active" and a click on "login" removes it, whatever was there
    before, and nothing else changes: going to the signup form and back
    leaves a page that showed the login form exactly as it was.  Without
    the container either click throws and changes nothing. *)
Theorem form_toggle (w : world) :
  match container (doc w) with
  | Some c =>
    register_click w = (Returns tt, with_doc (with_container (Some true)) w)
    ∧ login_click w = (Returns tt, with_doc (with_container (Some false)) w)
    ∧ snd (login_click (snd (register_click w)))
      = with_doc (with_container (Some false)) w
    ∧ (c = false → snd (login_click (snd (register_click w))) = w)
  | None =>
    register_click w
    = (Throws (TypeError (utf16 "Cannot read properties of null (reading 'classList')")), w)
    ∧ login_click w
      = (Throws (TypeError (utf16 "Cannot read properties of null (reading 'classList')")), w)
  end.
Proof.
  assert (null_property (utf16 "classList")
          = TypeError (utf16 "Cannot read properties of null (reading 'classList')")) as E
    by (by vm_compute).
  unfold register_click, login_click, container_add_active, container_remove_active,
    bind, gets, modify, throw.
  destruct w as [d t b ts n c s a h tr]. destruct d as [em co sb lb ru re rp lu lp].
  simpl. destruct co as [c0|]; simpl; [|by rewrite E].
  repeat split. by intros ->.
Qed.

Lemma form_toggle_witness :
  let w := snd (login_click (loaded [] [] [] [] [])) in
  container (doc w) = Some false
  ∧ snd (login_click (snd (register_click w))) = w.
Proof.
  intros w. split; [reflexivity|].
  pose proof (form_toggle w) as H.
  change (container (doc w)) with (Some false) in H.
  destruct H as (_ & _ & _ & H). by apply H.
Defined.

(** ** Password toggle *)

(** X17. Two clicks on a toggle whose icon agrees with its target, a
    password field with the open eye or a text field with the closed
    eye, give back the page as it was. *)
Theorem toggle_click_twice (i : nat) (t : toggle) (p : password_page) :
  toggles p !! i = Some t →
  in_sync t p →
  toggle_click i (toggle_click i p) = p.
Proof.
  intros Ht Hsync.
  assert (i < length (toggles p))%nat as Hi by (by eapply lookup_lt_Some).
  destruct p as [ts ty], t as [dt [ic|]]; simpl in *;
    [|by destruct Hsync as [[_ ?]|[_ ?]]].
  assert (Some (utf16 "text") ≠ Some (utf16 "password")) as Hne by (by vm_compute).
  destruct Hsync as [[Hty Hsrc]|[Hty Hsrc]]; simpl in Hsrc; injection Hsrc as Hs.
  - unfold toggle_click at 2. simpl. rewrite Ht. simpl.
    unfold target_id in *. simpl in *. rewrite Hty.
    rewrite bool_decide_false by done.
    unfold toggle_click. simpl.
    rewrite list_lookup_insert_eq by done. simpl.
    unfold target_id. simpl. rewrite lookup_insert_eq.
    rewrite bool_decide_true by done.
    rewrite list_insert_insert_eq, insert_insert_eq.
    f_equal.
    + apply list_insert_id. rewrite Ht. do 3 f_equal.
      destruct ic. unfold with_src. simpl in *. by subst.
    + by apply insert_id.
  - unfold toggle_click at 2. simpl. rewrite Ht. simpl.
    unfold target_id in *. simpl in *. rewrite Hty.
    rewrite bool_decide_true by done.
    unfold toggle_click. simpl.
    rewrite list_lookup_insert_eq by done. simpl.
    unfold target_id. simpl. rewrite lookup_insert_eq.
    rewrite bool_decide_false by done.
    rewrite list_insert_insert_eq, insert_insert_eq.
    f_equal.
    + apply list_insert_id. rewrite Ht. do 3 f_equal.
      destruct ic. unfold with_src. simpl in *. by subst.
    + by apply insert_id.
Qed.

Lemma toggle_click_twice_witness :
  let p := install_toggles
             {| toggles := [{| data_target := Some (utf16 "loginPass"); icon := None |}];
                type_of := {[ utf16 "loginPass" := Some (utf16 "password") ]} |} in
  type_of (toggle_click 0 p) !! utf16 "loginPass" = Some (Some (utf16 "text"))
  ∧ toggle_click 0 (toggle_click 0 p) = p.
Proof.
  intros p. split; [by vm_compute|].
  apply (toggle_click_twice 0
           {| data_target := Some (utf16 "loginPass"); icon := Some new_icon |} p).
  - reflexivity.
  - right. split; by vm_compute.
Defined.

(** X18. A click on a toggle with its icon in place: when no element has
    the id of its "data-target" the page is unchanged; otherwise the
    target becomes a text field if it was a password field and a
    password field in every other case, the toggle's icon shows the
    closed eye in the first case and the open eye in the second, so icon
    and target agree afterwards, and no other element and no other
    toggle is changed. *)
Theorem toggle_click_effect (i : nat) (t : toggle) (ic : img) (p : password_page) :
  toggles p !! i = Some t → icon t = Some ic →
  let p' := toggle_click i p in
  match type_of p !! target_id t with
  | None => p' = p
  | Some type =>
    let shown := bool_decide (type = Some (utf16 "password")) in
    type_of p' !! target_id t
    = Some (Some (if shown then utf16 "text" else utf16 "password"))
    ∧ toggles p' !! i
      = Some {| data_target := data_target t;
                icon := Some (with_src (if shown then closed_png else visible_png) ic) |}
    ∧ (∃ t', toggles p' !! i = Some t' ∧ in_sync t' p')
    ∧ (∀ k, k ≠ target_id t → type_of p' !! k = type_of p !! k)
    ∧ (∀ j, j ≠ i → toggles p' !! j = toggles p !! j)
    ∧ length (toggles p') = length (toggles p)
  end.
Proof.
  intros Ht Hic p'. subst p'.
  assert (i < length (toggles p))%nat as Hi by (by eapply lookup_lt_Some).
  unfold toggle_click. rewrite Ht, Hic.
  destruct (type_of p !! target_id t) as [type|] eqn:Hty; [|done].
  cbv zeta.
  destruct (bool_decide (type = Some (utf16 "password"))) eqn:Hshown; simpl.
  - rewrite lookup_insert_eq, list_lookup_insert_eq by done.
    split; [done|]. split; [done|]. split.
    { eexists. split; [reflexivity|]. left. unfold target_id. simpl.
      by rewrite lookup_insert_eq. }
    split; [intros k Hk; by rewrite lookup_insert_ne|].
    split; [intros j Hj; by rewrite list_lookup_insert_ne|].
    by rewrite length_insert.
  - rewrite lookup_insert_eq, list_lookup_insert_eq by done.
    split; [done|]. split; [done|]. split.
    { eexists. split; [reflexivity|]. right. unfold target_id. simpl.
      by rewrite lookup_insert_eq. }
    split; [intros k Hk; by rewrite lookup_insert_ne|].
    split; [intros j Hj; by rewrite list_lookup_insert_ne|].
    by rewrite length_insert.
Qed.

Lemma toggle_click_effect_witness :
  let p := install_toggles
             {| toggles := [{| data_target := None; icon := None |}];
                type_of := {[ utf16 "null" := Some (utf16 "email") ]} |} in
  type_of (toggle_click 0 p) !! utf16 "null" = Some (Some (utf16 "password")).
Proof.
  intros p.
  pose proof (toggle_click_effect 0 {| data_target := None; icon := Some new_icon |}
                new_icon p eq_refl eq_refl) as H.
  cbv zeta in H.
  change (type_of p !! target_id {| data_target := None; icon := Some new_icon |})
    with (type_of p !! utf16 "null") in H.
  assert (type_of p !! utf16 "null" = Some (Some (utf16 "email"))) as E by (by vm_compute).
  rewrite E in H. destruct H as (H & _). etrans; [exact H|]. by vm_compute.
Defined.

(** ** Navigation menu *)

Lemma classList_toggle_elem (token x : jsstring) (l : list jsstring) :
  x ∈ classList_toggle token l ↔ (x ≠ token ∧ x ∈ l) ∨ (x = token ∧ token ∉ l).
Proof.
  unfold classList_toggle. case_bool_decide as Hin.
  - rewrite list_elem_of_filter. split; [tauto|]. intros [?|[-> ?]]; tauto.
  - rewrite elem_of_app, list_elem_of_singleton. split.
    + intros [Hx| ->]; [|tauto]. left. split; [|done]. by intros ->.
    + intros [[_ ?]|[-> _]]; tauto.
Qed.

(** X19. One run of [toggleNav] flips whether the menu has the class
    "active" and keeps every other class.  Two runs, as when a tap
    delivers both touchstart and click, leave the menu with the classes
    it had, and with the very same list when it was closed.  Without the
    menu element a run throws. *)
Theorem hamburger_tap (g1 g2 : gesture) (l : list jsstring) :
  ∃ once twice,
    hamburger_on g1 (Some l) = inr once
    ∧ hamburger_on g2 (Some once) = inr twice
    ∧ (utf16 "active" ∈ once ↔ utf16 "active" ∉ l)
    ∧ (∀ x, x ≠ utf16 "active" → x ∈ once ↔ x ∈ l)
    ∧ (∀ x, x ∈ twice ↔ x ∈ l)
    ∧ (utf16 "active" ∉ l → twice = l)
    ∧ hamburger_on g1 None
      = inl (TypeError (utf16 "Cannot read properties of null (reading 'classList')")).
Proof.
  exists (classList_toggle (utf16 "active") l),
         (classList_toggle (utf16 "active") (classList_toggle (utf16 "active") l)).
  split; [by destruct g1|]. split; [by destruct g2|].
  split; [rewrite classList_toggle_elem; tauto|].
  split; [intros x Hx; rewrite classList_toggle_elem; tauto|].
  split.
  { intros x. rewrite !classList_toggle_elem.
    destruct (decide (x = utf16 "active")) as [->|Hx]; [|tauto].
    destruct (decide (utf16 "active" ∈ l)); tauto. }
  split.
  { intros Hout. unfold classList_toggle at 2. rewrite bool_decide_false by done.
    unfold classList_toggle. rewrite bool_decide_true
      by (apply elem_of_app; right; by apply list_elem_of_singleton).
    rewrite filter_app, filter_cons_False, filter_nil, app_nil_r by tauto.
    clear -Hout. induction l as [|x l IH]; [done|].
    apply not_elem_of_cons in Hout as [Hx Hl].
    rewrite filter_cons_True by done. by rewrite IH. }
  destruct g1; unfold hamburger_on, toggleNav; f_equal; by vm_compute.
Qed.

Lemma hamburger_tap_witness :
  hamburger_on Click (Some [utf16 "nav-links"]) = inr [utf16 "nav-links"; utf16 "active"]
  ∧ hamburger_on TouchStart (Some [utf16 "nav-links"; utf16 "active"])
    = inr [utf16 "nav-links"].
Proof.
  destruct (hamburger_tap Click TouchStart [utf16 "nav-links"])
    as (once & twice & H1 & H2 & _ & _ & _ & H6 & _).
  assert (once = [utf16 "nav-links"; utf16 "active"]) as ->.
  { assert (hamburger_on Click (Some [utf16 "nav-links"])
            = inr [utf16 "nav-links"; utf16 "active"]) as E by (by vm_compute).
    rewrite E in H1. by injection H1 as <-. }
  split; [exact H1|]. rewrite H2. f_equal. apply H6.
  apply not_elem_of_cons. split; [by vm_compute | apply not_elem_of_nil].
Defined.

(** ** The body null under a status that is not ok *)

(** X20. A response that is not ok and whose body is the JSON text null
    makes the wrapper fail with the TypeError of reading "message" of
    null: neither a message of the server nor "HTTP " and the status is
    reported. *)
Theorem safeFetch_null_error_body (url : jsstring) (o : options)
    (timeout : option N) (ms st : N) (w : world) :
  fresh_controllers w →
  ms < default 10000 timeout →
  ¬ (200 ≤ st ≤ 299) →
  fst (safeFetch url o timeout (arrives ms st (Some JNull)) w)
  = Throws (TypeError (utf16 "Cannot read properties of null (reading 'message')")).
Proof.
  intros Hw Hms Hst. rewrite safeFetch_spec by done.
  rewrite race_arrives_in_time by done.
  unfold settle. simpl. rewrite not_ok by done.
  unfold null_property. by vm_compute.
Qed.

Lemma safeFetch_null_error_body_witness :
  fst (safeFetch (API_URL ++ utf16 "/register")
         (POST (signup_body (utf16 "bob") (utf16 "bob@example.org") (utf16 "secret1")))
         None (arrives 75 409 (Some JNull))
         (loaded (utf16 "bob") (utf16 "bob@example.org") (utf16 "secret1") [] []))
  = Throws (TypeError (utf16 "Cannot read properties of null (reading 'message')")).
Proof.
  apply safeFetch_null_error_body.
  - apply loaded_fresh_controllers.
  - reflexivity.
  - vm_compute. intros [_ H]. by apply H.
Defined.
